(** * Realtime vision assistant: the ToolPanel and CameraModal components

    A shallow embedding of [client/components/ToolPanel.jsx] and
    [client/components/CameraModal.jsx].  Component state is a record, the
    handlers are programs of a small state-and-exception monad whose world
    holds the React state, the trace of calls that leave the component
    ([console], [sendClientEvent], [fetch], [setTimeout]) and a logical clock
    in milliseconds. *)

From Stdlib Require Import String List ZArith Bool Lia DecimalString.
Import ListNotations.
Open Scope string_scope.

(** ** The JavaScript values the components read *)

Module Js.

(** An [Error] object: the handlers only ever read [error.message]. *)
Record Error := mkError { name : string; message : string }.

Definition new_Error (msg : string) : Error := mkError "Error" msg.
Definition new_TypeError (msg : string) : Error := mkError "TypeError" msg.

(** How the evaluation of an expression, or of an async function body up
    to its end, finishes.  [Hang] is an [await] on a promise that never
    settles: the rest of the body is never run. *)
Inductive Completion (A : Type) : Type :=
| Normal (a : A)
| Throw (e : Error)
| Hang.
Arguments Normal {A} a.
Arguments Throw {A} e.
Arguments Hang {A}.

(** A property that holds a string or is [undefined]. *)
Definition truthy (v : option string) : bool :=
  match v with
  | Some s => negb (s =? "")
  | None => false
  end.

(** [v === s] for a string literal [s]. *)
Definition strict_eq (v : option string) (s : string) : bool :=
  match v with
  | Some t => t =? s
  | None => false
  end.

(** A promise, by the logical time (in ms after its creation) at which it
    settles, if it ever does. *)
Inductive Promise (A : Type) : Type :=
| SettlesAt (t : Z) (c : Completion A)
| Pending.
Arguments SettlesAt {A} t c.
Arguments Pending {A}.

(** [Promise.race([p, q])]: the first to settle decides.  When both settle
    in the same instant the model lets [p] win; the properties below are
    stated for strictly earlier and strictly later requests and do not
    depend on it. *)
Definition Promise_race {A} (p q : Promise A) : Promise A :=
  match p, q with
  | Pending, _ => q
  | _, Pending => p
  | SettlesAt tp _, SettlesAt tq _ => if (tq <? tp)%Z then q else p
  end.

(** Template-literal rendering of a number. *)
Definition show_Z (z : Z) : string := NilZero.string_of_int (Z.to_int z).

End Js.
Import Js.

(** ** Realtime events, as far as the classifier reads them *)

(** An event is an object; each property the classifier reads holds a
    string, or an object with such properties, or is absent. *)

(** An element of [response.output], or [response.output] itself when it is
    a single object. *)
Record OutputItem := mkItem {
  item_type : option string;
  item_name : option string
}.

(** The code reads [response.output] both as one object ([.type], [.name])
    and as an array ([.some], [.find]). *)
Inductive Output :=
| Single (o : OutputItem)
| Collection (os : list OutputItem).

Record FunctionField := mkFunction { function_name : option string }.
Record ResponseField := mkResponse { output : option Output }.

Record RealtimeEvent := mkEvent {
  type : option string;
  function : option FunctionField;
  response : option ResponseField
}.

(** ** Messages handed to [sendClientEvent] *)

Inductive ClientEvent :=
| FunctionResult (name : string) (success : bool)
| ConversationItemCreate (role : string) (text : option string)
| SpeechOutputStart (voice : string) (text : option string).

Definition client_event_type (m : ClientEvent) : string :=
  match m with
  | FunctionResult _ _ => "function_result"
  | ConversationItemCreate _ _ => "conversation.item.create"
  | SpeechOutputStart _ _ => "speech.output.start"
  end.

(** ** HTTP responses of [fetch] *)

(** The [message] property of the parsed body.  [MessageObject c] is any
    value other than null and undefined, with [c] what its [content]
    property holds: an object, or a string, which has no [content]. *)
Inductive MessageValue :=
| MessageUndefined
| MessageNull
| MessageObject (content : option string).

(** A parsed JSON body, as far as [handlePhotoTaken] reads it. *)
Inductive Json :=
| JsonNull
| JsonObject (message : MessageValue).

(** The body of a response: [response.json()] rejects with a [SyntaxError]
    when it is not JSON.  [BodyInvalid] and [BodyJson] are bodies that are
    complete when the response resolves; [BodySlow ms] is one that is
    complete [ms] later, and [BodyStalled] one that never is, so that
    [response.json()] stays pending. *)
Inductive Body :=
| BodyInvalid (syntax_error : string)
| BodyJson (j : Json)
| BodySlow (ms : Z) (parsed : string + Json)
| BodyStalled.

Record Response := mkHttp { ok : bool; status : Z; body : Body }.

(** ** The data channel *)

Inductive RTCDataChannelState := connecting | open | closing | closed.

Definition is_open (s : RTCDataChannelState) : bool :=
  match s with open => true | _ => false end.

(** A channel handle, by what its [readyState] property shows each time it
    is read: [readyState k] is the value seen by read number [k], counted
    from 0 over the life of the world. *)
Record RTCDataChannel := mkChannel { readyState : nat -> RTCDataChannelState }.

(** ** Component props, state and world *)

Record Props := mkProps {
  isSessionActive : bool;
  events : option (list RealtimeEvent);
  dataChannel : option RTCDataChannel
}.

Record UI := mkUI {
  showCamera : bool;
  currentImageFilename : option string;
  isAnalyzing : bool;
  currentImage : option string;
  analysisError : option string
}.

(** The [useState] initial values. *)
Definition initial_ui : UI := mkUI false None false None None.

(** Calls that leave the component, in program order.  [console] calls are
    recorded by their first argument. *)
Inductive Action :=
| ConsoleLog (label : string)
| ConsoleError (label : string) (e : Error)
| SendClientEvent (m : ClientEvent)
| Fetch (url method : string) (payload : string)
| SetTimeout (ms : Z).

Record World := mkWorld {
  ui : UI;
  trace : list Action;
  clock : Z;
  reads : nat
}.

Definition start (st : UI) : World := mkWorld st [] 0 0.

(** What the network does with a request to a URL. *)
Record Env := mkEnv { fetch : string -> Promise Response }.

(** ** The monad of handler bodies *)

Definition M (A : Type) : Type := World -> Completion A * World.

Definition ret {A} (a : A) : M A := fun w => (Normal a, w).

Definition bind {A B} (m : M A) (k : A -> M B) : M B :=
  fun w =>
    match m w with
    | (Normal a, w') => k a w'
    | (Throw e, w') => (Throw e, w')
    | (Hang, w') => (Hang, w')
    end.

Definition throw {A} (e : Error) : M A := fun w => (Throw e, w).

(** [try { m } catch (error) { h error }] *)
Definition try_catch {A} (m : M A) (h : Error -> M A) : M A :=
  fun w =>
    match m w with
    | (Throw e, w') => h e w'
    | r => r
    end.

(** A call of an async function whose promise is not awaited.  The task's
    own calls are recorded where it is started; whatever way it ends, the
    caller goes on. *)
Definition background {A} (m : M A) : M unit :=
  fun w => (Normal tt, snd (m w)).

Definition lift {A} (c : Completion A) : M A := fun w => (c, w).

Declare Scope js_scope.
Delimit Scope js_scope with js.
Notation "x <- m ;; k" := (bind m (fun x => k))
  (at level 100, m at next level, right associativity) : js_scope.
Notation "m ;; k" := (bind m (fun _ => k))
  (at level 100, right associativity) : js_scope.
Open Scope js_scope.

Definition emit (a : Action) : M unit :=
  fun w => (Normal tt, mkWorld (ui w) (trace w ++ [a]) (clock w) (reads w)).

Definition modify_ui (f : UI -> UI) : M unit :=
  fun w => (Normal tt, mkWorld (f (ui w)) (trace w) (clock w) (reads w)).

Definition get_ui : M UI := fun w => (Normal (ui w), w).

Definition advance (ms : Z) : M unit :=
  fun w => (Normal tt, mkWorld (ui w) (trace w) (clock w + ms) (reads w)).

Definition console_log (label : string) : M unit := emit (ConsoleLog label).
Definition console_error (label : string) (e : Error) : M unit :=
  emit (ConsoleError label e).

(** The prop [sendClientEvent], a function of the parent component: a call
    is recorded with its argument and returns. *)
Definition sendClientEvent (m : ClientEvent) : M unit := emit (SendClientEvent m).

(** [await p] *)
Definition await {A} (p : Promise A) : M A :=
  match p with
  | SettlesAt t c => advance t ;; lift c
  | Pending => lift Hang
  end.

(** [await new Promise(resolve => setTimeout(resolve, ms))] *)
Definition sleep (ms : Z) : M unit :=
  emit (SetTimeout ms) ;; await (SettlesAt ms (Normal tt)).

(** [channel.readyState] *)
Definition read_readyState (ch : RTCDataChannel) : M RTCDataChannelState :=
  fun w => (Normal (readyState ch (reads w)),
            mkWorld (ui w) (trace w) (clock w) (S (reads w))).

(** The state setters. *)
Definition setShowCamera (b : bool) : M unit :=
  modify_ui (fun s => mkUI b (currentImageFilename s) (isAnalyzing s)
                           (currentImage s) (analysisError s)).
Definition setCurrentImageFilename (f : option string) : M unit :=
  modify_ui (fun s => mkUI (showCamera s) f (isAnalyzing s)
                           (currentImage s) (analysisError s)).
Definition setIsAnalyzing (b : bool) : M unit :=
  modify_ui (fun s => mkUI (showCamera s) (currentImageFilename s) b
                           (currentImage s) (analysisError s)).
Definition setCurrentImage (i : option string) : M unit :=
  modify_ui (fun s => mkUI (showCamera s) (currentImageFilename s)
                           (isAnalyzing s) i (analysisError s)).
Definition setAnalysisError (e : option string) : M unit :=
  modify_ui (fun s => mkUI (showCamera s) (currentImageFilename s)
                           (isAnalyzing s) (currentImage s) e).

(** ** ToolPanel: the events effect (lines 41-72) *)

Definition is_function_call (o : OutputItem) : bool :=
  strict_eq (item_type o) "function_call".

(** [mostRecentEvent.response?.output] *)
Definition response_output (e : RealtimeEvent) : option Output :=
  match response e with
  | Some r => output r
  | None => None
  end.

(** [output.type] and [output.name]; an array has neither property. *)
Definition output_type (o : Output) : option string :=
  match o with
  | Single i => item_type i
  | Collection _ => None
  end.

Definition output_name (o : Output) : option string :=
  match o with
  | Single i => item_name i
  | Collection _ => None
  end.

Definition some_not_a_function : Error :=
  new_TypeError "mostRecentEvent.response?.output?.some is not a function".
Definition find_not_a_function : Error :=
  new_TypeError "mostRecentEvent.response?.output?.find is not a function".

(** The condition of the [if] at lines 53-57. *)
Definition is_function_call_event (e : RealtimeEvent) : Completion bool :=
  if strict_eq (type e) "function_call" then Normal true
  else if strict_eq (type e) "response.output_item.added"
          && strict_eq (match response_output e with
                        | Some o => output_type o
                        | None => None
                        end) "function_call"
  then Normal true
  else if strict_eq (type e) "response.done" then
    match response_output e with
    | None => Normal false
    | Some (Collection os) => Normal (existsb is_function_call os)
    | Some (Single _) => Throw some_not_a_function
    end
  else Normal false.

(** The [||] chain of lines 62-64. *)
Definition functionName (e : RealtimeEvent) : Completion (option string) :=
  let direct := match function e with
                | Some f => function_name f
                | None => None
                end in
  if truthy direct then Normal direct
  else
    let nested := match response_output e with
                  | Some o => output_name o
                  | None => None
                  end in
    if truthy nested then Normal nested
    else
      match response_output e with
      | None => Normal None
      | Some (Collection os) =>
          Normal (match find is_function_call os with
                  | Some o => item_name o
                  | None => None
                  end)
      | Some (Single _) => Throw find_not_a_function
      end.

Definition detected_log : string :=
  "Take photo function detected, showing camera...".

Definition events_effect (props : Props) : M unit :=
  match events props with
  | None | Some [] => ret tt
  | Some (mostRecentEvent :: _) =>
      console_log "Processing event:" ;;
      found <- lift (is_function_call_event mostRecentEvent) ;;
      if found then
        console_log "Found function call event:" ;;
        name <- lift (functionName mostRecentEvent) ;;
        if strict_eq name "take_photo" then
          console_log detected_log ;;
          setShowCamera true ;;
          setAnalysisError None
        else ret tt
      else ret tt
  end.

(** ** ToolPanel: the session effect and [cleanupSession] (lines 74-97) *)

(** A request is recorded with the one field of its JSON body. *)
Definition cleanupSession (env : Env) (imageFilename : string) : M unit :=
  try_catch
    (emit (Fetch "/cleanup-image" "POST" imageFilename) ;;
     _ <- await (fetch env "/cleanup-image") ;;
     ret tt)
    (fun error => console_error "Cleanup failed:" error).

(** The effect sees [currentImageFilename] as the render that created it
    did, so the state is read before the setters run. *)
Definition session_effect (props : Props) (env : Env) : M unit :=
  rendered <- get_ui ;;
  if negb (isSessionActive props) then
    setShowCamera false ;;
    setIsAnalyzing false ;;
    setCurrentImage None ;;
    setAnalysisError None ;;
    match currentImageFilename rendered with
    | Some filename =>
        if truthy (Some filename) then
          background (cleanupSession env filename) ;;
          setCurrentImageFilename None
        else ret tt
    | None => ret tt
    end
  else ret tt.

(** ** ToolPanel: [analyzeWithTimeout] (lines 4-27) *)

Definition VISION_TIMEOUT : Z := 10000.

Definition timeout_message : string := "Vision analysis timeout".

Definition analyzeWithTimeout (env : Env) (imageData : string) : M Response :=
  emit (SetTimeout VISION_TIMEOUT) ;;
  let timeoutPromise : Promise Response :=
    SettlesAt VISION_TIMEOUT (Throw (new_Error timeout_message)) in
  try_catch
    (emit (Fetch "/analyze-image" "POST" imageData) ;;
     result <- await (Promise_race (fetch env "/analyze-image") timeoutPromise) ;;
     ret result)
    (fun error => throw error).

(** ** ToolPanel: [handlePhotoTaken] and [sendToModel] (lines 99-213) *)

(** [await response.json()] *)
Definition json (r : Response) : M Json :=
  match body r with
  | BodyInvalid msg => throw (mkError "SyntaxError" msg)
  | BodyJson j => ret j
  | BodySlow ms (inl msg) => advance ms ;; throw (mkError "SyntaxError" msg)
  | BodySlow ms (inr j) => advance ms ;; ret j
  | BodyStalled => lift Hang
  end.

(** [analysis.message.content]; the messages are the engine's (V8). *)
Definition message_content (analysis : Json) : Completion (option string) :=
  match analysis with
  | JsonNull =>
      Throw (new_TypeError "Cannot read properties of null (reading 'message')")
  | JsonObject MessageUndefined =>
      Throw (new_TypeError "Cannot read properties of undefined (reading 'content')")
  | JsonObject MessageNull =>
      Throw (new_TypeError "Cannot read properties of null (reading 'content')")
  | JsonObject (MessageObject c) => Normal c
  end.

Definition maxAttempts : nat := 5.
Definition baseDelay : Z := 1000.

Definition function_result : ClientEvent := FunctionResult "take_photo" true.
Definition assistant_message (text : option string) : ClientEvent :=
  ConversationItemCreate "assistant" text.
Definition speech_start (text : option string) : ClientEvent :=
  SpeechOutputStart "verse" text.

Definition retry_log (delay : Z) (attempt : nat) : string :=
  "Channel not ready, retrying in " ++ show_Z delay ++ "ms (attempt "
  ++ show_Z (Z.of_nat attempt + 1) ++ "/" ++ show_Z (Z.of_nat maxAttempts) ++ ")".

Definition channel_unavailable : Error :=
  new_Error "Failed to send results to model - channel not available".

(** The [for] loop of [sendToModel], entered at [attempt] with
    [remaining = maxAttempts - attempt] iterations left.  [dataChannel] and
    [isSessionActive] are the props of the render that created the handler,
    fixed for the whole loop; only [channel.readyState] is read anew at
    each attempt. *)
Fixpoint sendToModel_loop (props : Props) (analysisText : option string)
    (remaining attempt : nat) : M unit :=
  match remaining with
  | O => throw channel_unavailable
  | S remaining' =>
      match dataChannel props, isSessionActive props with
      | Some channel, true =>
          state <- read_readyState channel ;;
          if is_open state then
            sendClientEvent function_result ;;
            sendClientEvent (assistant_message analysisText) ;;
            sendClientEvent (speech_start analysisText) ;;
            ret tt
          else
            let delay := (baseDelay * 2 ^ Z.of_nat attempt)%Z in
            console_log (retry_log delay attempt) ;;
            sleep delay ;;
            sendToModel_loop props analysisText remaining' (S attempt)
      | _, _ =>
          console_log "Session no longer active, stopping retry" ;;
          ret tt
      end
  end.

Definition sendToModel (props : Props) (analysisText : option string) : M unit :=
  sendToModel_loop props analysisText maxAttempts 0.

Definition timed_out_text : string :=
  "Vision analysis timed out. Please try again.".
Definition apology_speech : string :=
  "I'm sorry, but the vision analysis timed out. Please try taking another photo.".

(** Lines 100-104, up to the first [await]. *)
Definition handlePhotoTaken_begin (imageData : string) : M unit :=
  console_log "Photo taken" ;;
  setShowCamera false ;;
  setCurrentImage (Some imageData) ;;
  setIsAnalyzing true ;;
  setAnalysisError None.

(** The [catch] block, lines 178-212. *)
Definition handlePhotoTaken_catch (props : Props) (error : Error) : M unit :=
  console_error "Vision analysis failed:" error ;;
  setIsAnalyzing false ;;
  setAnalysisError (Some (message error)) ;;
  if message error =? timeout_message then
    let errorText := timed_out_text in
    setAnalysisError (Some errorText) ;;
    match dataChannel props with
    | Some channel =>
        state <- read_readyState channel ;;
        if is_open state then
          sendClientEvent (assistant_message (Some errorText)) ;;
          sendClientEvent (speech_start (Some apology_speech))
        else ret tt
    | None => ret tt
    end
  else ret tt.

(** Lines 106-212: the [try] statement. *)
Definition handlePhotoTaken_resume (props : Props) (env : Env)
    (imageData : string) : M unit :=
  try_catch
    (response <- analyzeWithTimeout env imageData ;;
     analysis <- json response ;;
     console_log "Vision analysis complete:" ;;
     setIsAnalyzing false ;;
     analysisText <- lift (message_content analysis) ;;
     background
       (try_catch (sendToModel props analysisText)
                  (fun error => console_error "Failed to send to model:" error)))
    (handlePhotoTaken_catch props).

Definition handlePhotoTaken (props : Props) (env : Env) (imageData : string)
    : M unit :=
  handlePhotoTaken_begin imageData ;;
  handlePhotoTaken_resume props env imageData.

(** The [onClose] handler given to the modal. *)
Definition onClose : M unit := setShowCamera false.

(** ** ToolPanel as a transition system *)

(** One step is one run of an effect or of a handler segment between two
    suspension points, under any props and any behaviour of the network.
    [handlePhotoTaken] is split at its first [await], so other steps may
    fall between the capture and the end of the analysis. *)
Inductive step : World -> World -> Prop :=
| step_events props w :
    step w (snd (events_effect props w))
| step_session props env w :
    step w (snd (session_effect props env w))
| step_close w :
    step w (snd (onClose w))
| step_photo_begin imageData w :
    step w (snd (handlePhotoTaken_begin imageData w))
| step_photo_resume props env imageData w :
    step w (snd (handlePhotoTaken_resume props env imageData w)).

Inductive reachable : World -> Prop :=
| reachable_start : reachable (start initial_ui)
| reachable_step w w' : reachable w -> step w w' -> reachable w'.

(** ** Observations on a trace *)

Definition sent (t : list Action) : list ClientEvent :=
  flat_map (fun a => match a with SendClientEvent m => [m] | _ => [] end) t.

Definition timers (t : list Action) : list Z :=
  flat_map (fun a => match a with SetTimeout ms => [ms] | _ => [] end) t.

Definition cleanup_requests (t : list Action) : list string :=
  flat_map (fun a => match a with
                     | Fetch url _ payload =>
                         if url =? "/cleanup-image" then [payload] else []
                     | _ => []
                     end) t.

Definition logged (label : string) (t : list Action) : bool :=
  existsb (fun a => match a with
                    | ConsoleLog l => l =? label
                    | _ => false
                    end) t.

(** The retry round of [sendToModel] for one attempt index. *)
Definition backoff_delay (attempt : nat) : Z := (baseDelay * 2 ^ Z.of_nat attempt)%Z.

Definition retry_round (attempt : nat) : list Action :=
  [ConsoleLog (retry_log (backoff_delay attempt) attempt);
   SetTimeout (backoff_delay attempt)].

(** The sum of [1000 * 2^i] for [i] from [from] to [from + n - 1]. *)
Definition backoff_sum (from n : nat) : Z :=
  fold_right Z.add 0%Z (map backoff_delay (seq from n)).

Definition triple (text : option string) : list ClientEvent :=
  [function_result; assistant_message text; speech_start text].

(** ** The classifier in the words of the specification *)

Module Spec.

(** The three recognized shapes. *)
Definition direct_function_call (e : RealtimeEvent) : bool :=
  strict_eq (type e) "function_call".

Definition added_output_item (e : RealtimeEvent) : bool :=
  strict_eq (type e) "response.output_item.added"
  && match response_output e with
     | Some (Single o) => strict_eq (item_type o) "function_call"
     | _ => false
     end.

Definition completed_with_function_call (e : RealtimeEvent) : bool :=
  strict_eq (type e) "response.done"
  && match response_output e with
     | Some (Collection os) => existsb is_function_call os
     | _ => false
     end.

Definition recognized (e : RealtimeEvent) : bool :=
  direct_function_call e || added_output_item e
  || completed_with_function_call e.

(** The three places a name can be. *)
Definition direct_name (e : RealtimeEvent) : option string :=
  match function e with
  | Some f => function_name f
  | None => None
  end.

Definition single_output_name (e : RealtimeEvent) : option string :=
  match response_output e with
  | Some (Single o) => item_name o
  | _ => None
  end.

Definition first_function_call_name (e : RealtimeEvent) : option string :=
  match response_output e with
  | Some (Collection os) =>
      match find is_function_call os with
      | Some o => item_name o
      | None => None
      end
  | _ => None
  end.

(** The first place, in the order given, that holds a non-empty name. *)
Fixpoint first_present (places : list (option string)) : option string :=
  match places with
  | [] => None
  | p :: rest => if truthy p then p else first_present rest
  end.

Definition resolved_name (e : RealtimeEvent) : option string :=
  first_present [direct_name e; single_output_name e;
                 first_function_call_name e].

Definition take_photo_invoked (e : RealtimeEvent) : bool :=
  recognized e && strict_eq (resolved_name e) "take_photo".

End Spec.

(** The state the controller is in after a detection. *)
Definition camera_requested (st : UI) : UI :=
  mkUI true (currentImageFilename st) (isAnalyzing st) (currentImage st) None.

(** ** CameraModal (CameraModal.jsx) *)

Module CameraModal.

Definition MediaStreamTrack := nat.

Record MediaStream := mkStream { getTracks : list MediaStreamTrack }.

(** The camera, by the tracks that are capturing from it. *)
Definition Device := list MediaStreamTrack.

(** [track.stop()] *)
Definition stop (track : MediaStreamTrack) (live : Device) : Device :=
  remove Nat.eq_dec track live.

Record State := mkState {
  error : option string;
  stream : option MediaStream
}.

(** [useState(null)], twice. *)
Definition initial_state : State := mkState None None.

(** The function returned by the effect (lines 29-33), as created by the
    render that saw the state [rendered]: its [stream] is that render's. *)
Definition effect_cleanup (rendered : State) (live : Device) : Device :=
  match stream rendered with
  | Some s => fold_left (fun l track => stop track l) (getTracks s) live
  | None => live
  end.

(** A mounted modal: its state, the video element's [srcObject], and the
    cleanup function React keeps for the effect.  The dependency array is
    empty, so the effect runs after the first render only and the cleanup
    kept is the one that render created. *)
Record Mounted := mkMounted {
  state : State;
  srcObject : option MediaStream;
  cleanup : Device -> Device
}.

Definition mount : Mounted :=
  mkMounted initial_state None (effect_cleanup initial_state).

Inductive UserMedia :=
| Granted (mediaStream : MediaStream)
| Denied (err : Error).

Definition camera_error : string :=
  "Could not access camera. Please ensure you have granted camera permissions.".

(** The rest of [setupCamera] once [getUserMedia] has settled (lines
    12-23); a granted stream is capturing from then on. *)
Definition setupCamera_settled (r : UserMedia) (m : Mounted) (live : Device)
    : Mounted * Device :=
  match r with
  | Granted mediaStream =>
      (mkMounted (mkState (error (state m)) (Some mediaStream))
                 (Some mediaStream) (cleanup m),
       (live ++ getTracks mediaStream)%list)
  | Denied _ =>
      (mkMounted (mkState (Some camera_error) (stream (state m)))
                 (srcObject m) (cleanup m),
       live)
  end.

(** React runs the kept cleanup when the modal leaves the tree. *)
Definition unmount (m : Mounted) (live : Device) : Device := cleanup m live.

(** The ways out of the modal.  The Cancel button calls [onClose] and the
    capture button calls [onPhotoTaken]; in ToolPanel both end in
    [setShowCamera(false)], which takes the modal out of the tree.
    Neither [takePhoto] nor [onClose] touches the stream itself. *)
Inductive Exit := CloseButton | SuccessfulCapture | Unmount.

Definition leave (how : Exit) (m : Mounted) (live : Device) : Device :=
  match how with
  | CloseButton => unmount m live
  | SuccessfulCapture => unmount m live
  | Unmount => unmount m live
  end.

End CameraModal.

(** ** Intermediate worlds of [handlePhotoTaken] *)

(** The world once [analyzeWithTimeout] has settled after [t] ms. *)
Definition after_race (imageData : string) (t : Z) (w : World) : World :=
  mkWorld (ui w)
          (trace w ++ [SetTimeout VISION_TIMEOUT;
                       Fetch "/analyze-image" "POST" imageData])
          (clock w + t) (reads w).

(** The world once the body has been parsed (lines 110-111). *)
Definition after_parse (w : World) : World :=
  mkWorld (mkUI (showCamera (ui w)) (currentImageFilename (ui w)) false
                (currentImage (ui w)) (analysisError (ui w)))
          (trace w ++ [ConsoleLog "Vision analysis complete:"])
          (clock w) (reads w).

(** [sendToModel().catch(...)], line 174. *)
Definition deliver (props : Props) (analysisText : option string) : M unit :=
  try_catch (sendToModel props analysisText)
            (fun error => console_error "Failed to send to model:" error).

(** The state while the analysis is in progress, and once it has ended
    without an error. *)
Definition analyzing (imageData : string) (st : UI) : UI :=
  mkUI false (currentImageFilename st) true (Some imageData) None.

Definition analyzed (imageData : string) (st : UI) : UI :=
  mkUI false (currentImageFilename st) false (Some imageData) None.

Definition analysis_failed (imageData : string) (text : string) (st : UI) : UI :=
  mkUI false (currentImageFilename st) false (Some imageData) (Some text).

(** The two messages of the spoken apology. *)
Definition apology : list ClientEvent :=
  [assistant_message (Some timed_out_text); speech_start (Some apology_speech)].

(** The error raised while the response is read (lines 109-114), if any. *)
Definition read_failure (r : Response) : option Error :=
  match body r with
  | BodyInvalid msg | BodySlow _ (inl msg) => Some (mkError "SyntaxError" msg)
  | BodyJson j | BodySlow _ (inr j) =>
      match message_content j with
      | Throw e => Some e
      | _ => None
      end
  | BodyStalled => None
  end.

(** The world [ms] later. *)
Definition later (ms : Z) (w : World) : World :=
  mkWorld (ui w) (trace w) (clock w + ms) (reads w).

(** ** The image filename *)

(** No filename is held and no cleanup request has been made. *)
Definition filename_unset (w : World) : Prop :=
  currentImageFilename (ui w) = None /\ cleanup_requests (trace w) = [].

(** A program that keeps it so. *)
Definition keeps {A} (m : M A) : Prop :=
  forall w, filename_unset w -> filename_unset (snd (m w)).

(** ** Sample inputs *)

(** The three encodings of a take_photo invocation. *)
Definition direct_take_photo : RealtimeEvent :=
  mkEvent (Some "function_call") (Some (mkFunction (Some "take_photo"))) None.

Definition added_take_photo : RealtimeEvent :=
  mkEvent (Some "response.output_item.added") None
    (Some (mkResponse
             (Some (Single (mkItem (Some "function_call") (Some "take_photo")))))).

Definition done_take_photo : RealtimeEvent :=
  mkEvent (Some "response.done") None
    (Some (mkResponse
             (Some (Collection [mkItem (Some "message") None;
                                mkItem (Some "function_call") (Some "take_photo")])))).

(** A channel that is still connecting until read number [n] finds it
    open, and one that never opens. *)
Definition opens_at (n : nat) : RTCDataChannel :=
  mkChannel (fun k => if Nat.ltb k n then connecting else open).

Definition never_opens : RTCDataChannel := mkChannel (fun _ => connecting).

(** A server that answers the analysis request after [t] ms with [r]. *)
Definition answers (t : Z) (r : Response) : Env :=
  mkEnv (fun _ => SettlesAt t (Normal r)).

Definition described (text : string) : Response :=
  mkHttp true 200 (BodyJson (JsonObject (MessageObject (Some text)))).

(** The replies of the server's [/analyze-image] route on an error: status
    400 or 500 and a body with [error] (and [details]) but no [message]. *)
Definition server_error (status : Z) : Response :=
  mkHttp false status (BodyJson (JsonObject MessageUndefined)).

(** A reply with a [message] object that has no [content]. *)
Definition without_content : Response :=
  mkHttp true 200 (BodyJson (JsonObject (MessageObject None))).

(** The reply of the web framework itself to a request body over its size
    limit: status 413 and a body whose [message] is a string. *)
Definition payload_too_large : Response :=
  mkHttp false 413 (BodyJson (JsonObject (MessageObject None))).

Definition sample_image : string := "data:image/jpeg;base64,AAAA".

(** A session in which the assistant asks for a photo, the photo is taken
    and described, the description is delivered, and the session ends. *)
Definition asked : World :=
  snd (events_effect (mkProps true (Some [direct_take_photo]) (Some (opens_at 0)))
         (start initial_ui)).

Definition captured : World := snd (handlePhotoTaken_begin sample_image asked).

Definition described_to_user : World :=
  snd (handlePhotoTaken_resume
         (mkProps true (Some [direct_take_photo]) (Some (opens_at 0)))
         (answers 1200 (described "A cup on a table.")) sample_image captured).

Definition session_ended : World :=
  snd (session_effect
         (mkProps false (Some [direct_take_photo]) (Some (opens_at 0)))
         (answers 300 (mkHttp true 200 (BodyJson JsonNull)))
         described_to_user).

(** A second request for a photo while the first is being analyzed. *)
Definition asked_again : World :=
  snd (events_effect (mkProps true (Some [direct_take_photo; direct_take_photo])
                        (Some (opens_at 0)))
         captured).

(** ** ToolPanel: what is rendered (lines 215-261) *)

(** The parts of the page that depend on props or state. *)
Record View := mkView {
  instructions : bool;
  placeholder : bool;
  image : option string;
  overlay : bool;
  error_box : option string;
  camera_modal : bool
}.

Definition render (props : Props) (st : UI) : View :=
  if isSessionActive props then
    mkView true false
           (if truthy (currentImage st) then currentImage st else None)
           (truthy (currentImage st) && isAnalyzing st)
           (if truthy (analysisError st) then analysisError st else None)
           (showCamera st)
  else
    mkView false true None false None (showCamera st).

(** A trace of [console.log] calls only. *)
Definition only_logs (t : list Action) : bool :=
  forallb (fun a => match a with ConsoleLog _ => true | _ => false end) t.

Definition console_errors (t : list Action) : list (string * Error) :=
  flat_map (fun a => match a with
                     | ConsoleError label e => [(label, e)]
                     | _ => []
                     end) t.

(** ** CameraModal: rendering and capture (lines 36-88) *)

Module CameraModalView.

Record View := mkView {
  error_text : option string;
  video : bool;
  capture_disabled : bool
}.

(** Lines 53-88: the error replaces the video, and disables the capture
    button. *)
Definition render (s : CameraModal.State) : View :=
  if truthy (CameraModal.error s)
  then mkView (CameraModal.error s) false true
  else mkView None true false.

(** [videoRef.current] after the render of [s]: the video element, when it
    is on the page. *)
Definition videoRef_current (s : CameraModal.State) : bool := video (render s).

(** The video element as the capture reads it, and the canvas encoder. *)
Record Video := mkVideo { videoWidth : nat; videoHeight : nat }.

(** [takePhoto] (lines 36-51), by the calls it makes to [onPhotoTaken].
    [toDataURL w h] is the JPEG data URL, at quality 0.8, of a canvas of
    that size on which the current frame was drawn. *)
Definition takePhoto (toDataURL : nat -> nat -> string) (v : Video)
    (s : CameraModal.State) : list string :=
  if negb (videoRef_current s) then []
  else [toDataURL (videoWidth v) (videoHeight v)].

End CameraModalView.

(** ** The server (server.js) *)

Module Server.

(** The first choice of a completion, as far as the client reads it. *)
Record Choice := mkChoice { choice_message : MessageValue }.

Record Reply (P : Type) := mkReply { code : Z; payload : P }.
Arguments mkReply {P} code payload.
Arguments code {P} r.
Arguments payload {P} r.

(** [reply.send(p)] and [reply.code(c).send(p)] *)
Definition send {P} (p : P) : Reply P := mkReply 200 p.
Definition code_send {P} (c : Z) (p : P) : Reply P := mkReply c p.

(** What a handler has done when it returns: its [console] calls, the
    requests it made to the provider, and its reply. *)
Record Handled (P : Type) := mkHandled {
  console : list Action;
  upstream : list string;
  reply : Reply P
}.
Arguments mkHandled {P} console upstream reply.
Arguments console {P} h.
Arguments upstream {P} h.
Arguments reply {P} h.

(** *** GET /token (lines 69-107) *)

Inductive JsonResult :=
| Parsed (data : string)
| Unparsable (e : Error).

(** What the request to the sessions API does. *)
Inductive SessionsApi :=
| Unreachable (e : Error)
| Answered (ok : bool) (statusText : string) (json : JsonResult).

Inductive TokenPayload :=
| TokenData (data : string)
| TokenError (error : string).

Definition sessions_url : string := "https://api.openai.com/v1/realtime/sessions".

(** The [try] block: its reply, or the error it throws. *)
Definition token_try (api : SessionsApi) : Reply TokenPayload + Error :=
  match api with
  | Unreachable e => inr e
  | Answered ok statusText json =>
      if negb ok then inr (new_Error ("Failed to get token: " ++ statusText))
      else
        match json with
        | Unparsable e => inr e
        | Parsed data => inl (send (TokenData data))
        end
  end.

Definition token_handler (api : SessionsApi) : Handled TokenPayload :=
  match token_try api with
  | inl r => mkHandled [] [sessions_url] r
  | inr error =>
      mkHandled [ConsoleError "Token generation failed:" error] [sessions_url]
                (code_send 500 (TokenError "Failed to generate session token"))
  end.

(** *** POST /analyze-image (lines 110-147) *)

(** [request.body]: absent, or an object that may have [imageData]. *)
Inductive RequestBody :=
| BodyAbsent
| BodyFields (imageData : option string).

(** What [openai.chat.completions.create] does: it rejects, or resolves
    with a response whose [choices] may be missing. *)
Inductive Completions :=
| CreateFailed (e : Error)
| Created (choices : option (list Choice)).

Inductive AnalyzePayload :=
| FirstChoice (choice : option Choice)
| AnalyzeError (error : string) (details : option string).

Definition destructure_error : Error :=
  new_TypeError
    "Cannot destructure property 'imageData' of 'request.body' as it is undefined.".

Definition choices_error : Error :=
  new_TypeError "Cannot read properties of undefined (reading '0')".

(** The [catch] block, lines 140-146. *)
Definition analyze_catch (logged_before : list Action) (called : list string)
    (error : Error) : Handled AnalyzePayload :=
  mkHandled (logged_before ++ [ConsoleError "Vision analysis failed:" error])
            called
            (code_send 500 (AnalyzeError "Vision analysis failed"
                                         (Some (message error)))).

Definition analyze_handler (create : string -> Completions)
    (body : RequestBody) : Handled AnalyzePayload :=
  match body with
  | BodyAbsent => analyze_catch [] [] destructure_error
  | BodyFields imageData =>
      match imageData with
      | Some url =>
          if negb (truthy (Some url)) then
            mkHandled [] [] (code_send 400 (AnalyzeError "Image data is required" None))
          else
            let before := [ConsoleLog "Analyzing image data..."] in
            match create url with
            | CreateFailed e => analyze_catch before [url] e
            | Created None => analyze_catch before [url] choices_error
            | Created (Some choices) =>
                mkHandled (before ++ [ConsoleLog "Vision analysis response:"])
                          [url]
                          (send (FirstChoice (hd_error choices)))
            end
      | None =>
          mkHandled [] [] (code_send 400 (AnalyzeError "Image data is required" None))
      end
  end.








End Server.

(** ** More sample inputs *)

Definition open_channel_props : Props :=
  mkProps true (Some [direct_take_photo]) (Some (opens_at 0)).


Definition network_down : Error := mkError "TypeError" "Failed to fetch".

Definition rejects (t : Z) (e : Error) : Env :=
  mkEnv (fun _ => SettlesAt t (Throw e)).

Definition describes (text : string) : string -> Server.Completions :=
  fun _ => Server.Created
             (Some [Server.mkChoice (MessageObject (Some text))]).


(** ** The classifier of the specification, on the event itself *)

(** These definitions read the event record directly and share nothing
    with the embedding of the effect. *)
Module Classifier.

Definition is_text (s : string) (v : option string) : bool :=
  match v with
  | Some t => String.eqb t s
  | None => false
  end.

Definition non_empty (v : option string) : bool :=
  match v with
  | Some EmptyString => false
  | Some (String _ _) => true
  | None => false
  end.

(** [response.output], when it is one object and when it is an array. *)
Definition single_output (e : RealtimeEvent) : option OutputItem :=
  match response e with
  | Some (mkResponse (Some (Single o))) => Some o
  | _ => None
  end.

Definition output_collection (e : RealtimeEvent) : option (list OutputItem) :=
  match response e with
  | Some (mkResponse (Some (Collection os))) => Some os
  | _ => None
  end.

Fixpoint first_function_call (os : list OutputItem) : option OutputItem :=
  match os with
  | [] => None
  | o :: rest =>
      if is_text "function_call" (item_type o) then Some o
      else first_function_call rest
  end.

(** The three shapes. *)
Definition direct (e : RealtimeEvent) : bool :=
  is_text "function_call" (type e).

Definition added_item (e : RealtimeEvent) : bool :=
  is_text "response.output_item.added" (type e)
  && match single_output e with
     | Some o => is_text "function_call" (item_type o)
     | None => false
     end.

Definition done (e : RealtimeEvent) : bool :=
  is_text "response.done" (type e)
  && match output_collection e with
     | Some os =>
         match first_function_call os with
         | Some _ => true
         | None => false
         end
     | None => false
     end.

Definition recognized (e : RealtimeEvent) : bool :=
  direct e || added_item e || done e.

(** The three places of a name. *)
Definition direct_name (e : RealtimeEvent) : option string :=
  match function e with
  | Some (mkFunction n) => n
  | None => None
  end.

Definition single_name (e : RealtimeEvent) : option string :=
  match single_output e with
  | Some o => item_name o
  | None => None
  end.

Definition collection_name (e : RealtimeEvent) : option string :=
  match output_collection e with
  | Some os =>
      match first_function_call os with
      | Some o => item_name o
      | None => None
      end
  | None => None
  end.



(** The name with empty names passed over. *)
Definition resolved_name (e : RealtimeEvent) : option string :=
  if non_empty (direct_name e) then direct_name e
  else if non_empty (single_name e) then single_name e
  else collection_name e.

Definition invoked (e : RealtimeEvent) : bool :=
  recognized e && is_text "take_photo" (resolved_name e).

(** The events on which an array method is reached on an output that is
    one object: a [response.done] event, or an event of a recognized shape
    that has no non-empty name in the first two places. *)
Definition array_method_on_object (e : RealtimeEvent) : bool :=
  match single_output e with
  | Some _ =>
      is_text "response.done" (type e)
      || (recognized e && negb (non_empty (direct_name e))
          && negb (non_empty (single_name e)))
  | None => false
  end.

End Classifier.

(** ** More sample events and channels *)



Definition late_answer : Env := answers 11000 (described "A cup on a table.").

(** A response that arrives in time with a body that never completes. *)
Definition stalled_body : Env :=
  answers 1200 (mkHttp true 200 BodyStalled).

(** A response in time whose body takes a further 700 ms to arrive. *)
Definition slow_answer : Env :=
  answers 1200
    (mkHttp true 200
       (BodySlow 700 (inr (JsonObject (MessageObject (Some "A cup on a table.")))))).

(** The assistant asks for another photo while the first is analysed. *)
Definition asked_while_analyzing : World :=
  snd (events_effect open_channel_props captured).

(** * Properties *)

(** ** Strings and the monad *)

Lemma strict_eq_true (v : option string) (s : string) :
  strict_eq v s = true <-> v = Some s.
Proof.
  destruct v as [t|]; simpl.
  - rewrite String.eqb_eq. split; congruence.
  - split; discriminate.
Qed.

Lemma strict_eq_falsy (v : option string) :
  truthy v = false -> strict_eq v "take_photo" = false.
Proof.
  destruct v as [t|]; simpl; [|reflexivity].
  destruct (String.eqb_spec t ""); [subst; reflexivity | discriminate].
Qed.

(** ** The events effect against the specification's classifier *)

Lemma is_function_call_event_recognized (e : RealtimeEvent) :
  match is_function_call_event e with
  | Normal b => b = Spec.recognized e
  | Throw _ => Spec.recognized e = false
  | Hang => False
  end.
Proof.
  unfold is_function_call_event, Spec.recognized, Spec.direct_function_call,
    Spec.added_output_item, Spec.completed_with_function_call.
  destruct (strict_eq (type e) "function_call"); [reflexivity|].
  destruct (strict_eq (type e) "response.output_item.added");
    destruct (strict_eq (type e) "response.done");
    destruct (response_output e) as [[o|os]|]; simpl;
    try destruct (strict_eq (item_type o) "function_call");
    simpl; try reflexivity;
    try (destruct (existsb is_function_call os); reflexivity).
Qed.

Lemma functionName_resolved (e : RealtimeEvent) :
  match functionName e with
  | Normal v =>
      strict_eq v "take_photo" = strict_eq (Spec.resolved_name e) "take_photo"
  | Throw _ => strict_eq (Spec.resolved_name e) "take_photo" = false
  | Hang => False
  end.
Proof.
  unfold functionName, Spec.resolved_name, Spec.direct_name,
    Spec.single_output_name, Spec.first_function_call_name.
  cbn [Spec.first_present].
  destruct (truthy match function e with
                   | Some f => function_name f
                   | None => None
                   end); [reflexivity|].
  destruct (response_output e) as [[o|os]|]; cbn [output_name truthy].
  - destruct (truthy (item_name o)); reflexivity.
  - destruct (find is_function_call os) as [o|]; [|reflexivity].
    destruct (truthy (item_name o)) eqn:Hn; [reflexivity|].
    now apply strict_eq_falsy.
  - reflexivity.
Qed.

(** What the effect does, by the two sub-expressions it evaluates. *)
Lemma events_effect_run (active : bool) (ch : option RTCDataChannel)
    (e : RealtimeEvent) (older : list RealtimeEvent) (st : UI) :
  events_effect (mkProps active (Some (e :: older)) ch) (start st) =
  if Spec.take_photo_invoked e
  then (Normal tt,
        mkWorld (camera_requested st)
                [ConsoleLog "Processing event:";
                 ConsoleLog "Found function call event:";
                 ConsoleLog detected_log] 0 0)
  else
    match is_function_call_event e with
    | Normal true =>
        (match functionName e with
         | Normal _ => Normal tt
         | Throw err => Throw err
         | Hang => Hang
         end,
         mkWorld st [ConsoleLog "Processing event:";
                     ConsoleLog "Found function call event:"] 0 0)
    | Normal false => (Normal tt, mkWorld st [ConsoleLog "Processing event:"] 0 0)
    | Throw err => (Throw err, mkWorld st [ConsoleLog "Processing event:"] 0 0)
    | Hang => (Hang, mkWorld st [ConsoleLog "Processing event:"] 0 0)
    end.
Proof.
  unfold Spec.take_photo_invoked.
  pose proof (is_function_call_event_recognized e) as Hc.
  pose proof (functionName_resolved e) as Hn.
  unfold events_effect; cbn [events].
  unfold bind, console_log, emit, lift, start; cbn [fst snd ui trace clock reads app].
  destruct (is_function_call_event e) as [[|]|err|]; try contradiction.
  - rewrite <- Hc; cbn [andb].
    destruct (functionName e) as [v|err|]; try contradiction.
    + rewrite <- Hn.
      destruct (strict_eq v "take_photo"); destruct st; reflexivity.
    + rewrite Hn. reflexivity.
  - rewrite <- Hc. reflexivity.
  - rewrite Hc. reflexivity.
Qed.

(** The three encodings of the same invocation are all detected. *)
Lemma three_shapes_invoked :
  Spec.take_photo_invoked direct_take_photo = true
  /\ Spec.take_photo_invoked added_take_photo = true
  /\ Spec.take_photo_invoked done_take_photo = true.
Proof. repeat split; reflexivity. Qed.

(** Events on which the effect raises: a single object where an array
    method is called.  No setter has run by then. *)
Lemma events_effect_type_errors :
  forall st,
    events_effect
      (mkProps true
         (Some [mkEvent (Some "response.done") None
                  (Some (mkResponse (Some (Single (mkItem (Some "function_call")
                                                          (Some "take_photo"))))))])
         None) (start st)
    = (Throw some_not_a_function,
       mkWorld st [ConsoleLog "Processing event:"] 0 0)
    /\
    events_effect
      (mkProps true
         (Some [mkEvent (Some "response.output_item.added") None
                  (Some (mkResponse (Some (Single (mkItem (Some "function_call")
                                                          None)))))])
         None) (start st)
    = (Throw find_not_a_function,
       mkWorld st [ConsoleLog "Processing event:";
                   ConsoleLog "Found function call event:"] 0 0).
Proof. intro st. split; reflexivity. Qed.

(** ** The retry loop of [sendToModel] *)

Lemma sent_app (t u : list Action) : sent (t ++ u) = (sent t ++ sent u)%list.
Proof. apply flat_map_app. Qed.

Lemma timers_app (t u : list Action) :
  timers (t ++ u) = (timers t ++ timers u)%list.
Proof. apply flat_map_app. Qed.

Lemma sent_retry_rounds (attempts : list nat) :
  sent (flat_map retry_round attempts) = [].
Proof. induction attempts as [|a l IH]; simpl; auto. Qed.

Lemma timers_retry_rounds (attempts : list nat) :
  timers (flat_map retry_round attempts) = map backoff_delay attempts.
Proof. induction attempts as [|a l IH]; simpl; congruence. Qed.

Lemma cleanup_requests_app (t u : list Action) :
  cleanup_requests (t ++ u) = (cleanup_requests t ++ cleanup_requests u)%list.
Proof. apply flat_map_app. Qed.

Lemma cleanup_requests_retry_rounds (attempts : list nat) :
  cleanup_requests (flat_map retry_round attempts) = [].
Proof. induction attempts as [|a l IH]; simpl; auto. Qed.

Lemma backoff_sum_succ (from n : nat) :
  backoff_sum from (S n) = (backoff_delay from + backoff_sum (S from) n)%Z.
Proof. reflexivity. Qed.

Lemma backoff_sum_closed (n from : nat) :
  backoff_sum from n = (1000 * 2 ^ Z.of_nat from * (2 ^ Z.of_nat n - 1))%Z.
Proof.
  revert from. induction n as [|n IH]; intro from.
  - unfold backoff_sum. simpl. lia.
  - rewrite backoff_sum_succ, IH. unfold backoff_delay, baseDelay.
    rewrite !Nat2Z.inj_succ, !Z.pow_succ_r by lia. ring.
Qed.

(** The loop entered with the channel closed for the next [j] reads and
    open at the one after: [j] retry rounds, then the triple. *)
Lemma sendToModel_loop_opens (props : Props) (ch : RTCDataChannel)
    (text : option string) :
  dataChannel props = Some ch ->
  isSessionActive props = true ->
  forall (j remaining attempt : nat) (w : World),
    j < remaining ->
    (forall i, i < j -> is_open (readyState ch (reads w + i)) = false) ->
    is_open (readyState ch (reads w + j)) = true ->
    sendToModel_loop props text remaining attempt w
    = (Normal tt,
       mkWorld (ui w)
               (trace w ++ flat_map retry_round (seq attempt j)
                  ++ map SendClientEvent (triple text))
               (clock w + backoff_sum attempt j)
               (reads w + j + 1)).
Proof.
  intros Hch Hactive.
  induction j as [|j IH]; intros remaining attempt w Hlt Hclosed Hopen;
    (destruct remaining as [|remaining]; [lia|]);
    cbn [sendToModel_loop]; rewrite Hch, Hactive;
    unfold bind at 1; unfold read_readyState at 1.
  - rewrite Nat.add_0_r in Hopen. rewrite Hopen.
    unfold bind, sendClientEvent, emit, ret; cbn.
    f_equal. f_equal.
    + rewrite <- !app_assoc. reflexivity.
    + unfold backoff_sum; simpl; lia.
    + lia.
  - assert (H0 : is_open (readyState ch (reads w)) = false).
    { rewrite <- (Nat.add_0_r (reads w)). apply Hclosed. lia. }
    rewrite H0.
    unfold bind at 1; unfold console_log at 1, emit at 1.
    unfold bind at 1; unfold sleep at 1, bind at 1, emit at 1.
    unfold await, bind at 1, advance at 1, lift at 1.
    rewrite IH; cbn [ui trace clock reads].
    + f_equal. f_equal.
      * rewrite <- !app_assoc. reflexivity.
      * rewrite backoff_sum_succ. fold (backoff_delay attempt). lia.
      * lia.
    + lia.
    + intros i Hi. replace (S (reads w) + i) with (reads w + S i) by lia.
      apply Hclosed. lia.
    + replace (S (reads w) + j) with (reads w + S j) by lia. exact Hopen.
Qed.

(** The loop with the channel closed at every read it makes: all the
    retry rounds, then the error. *)
Lemma sendToModel_loop_never (props : Props) (ch : RTCDataChannel)
    (text : option string) :
  dataChannel props = Some ch ->
  isSessionActive props = true ->
  forall (remaining attempt : nat) (w : World),
    (forall i, i < remaining ->
               is_open (readyState ch (reads w + i)) = false) ->
    sendToModel_loop props text remaining attempt w
    = (Throw channel_unavailable,
       mkWorld (ui w)
               (trace w ++ flat_map retry_round (seq attempt remaining))
               (clock w + backoff_sum attempt remaining)
               (reads w + remaining)).
Proof.
  intros Hch Hactive.
  induction remaining as [|remaining IH]; intros attempt w Hclosed.
  - cbn. unfold throw. destruct w; cbn. f_equal. f_equal.
    + now rewrite app_nil_r.
    + unfold backoff_sum; simpl; lia.
    + lia.
  - cbn [sendToModel_loop]; rewrite Hch, Hactive.
    unfold bind at 1; unfold read_readyState at 1.
    assert (H0 : is_open (readyState ch (reads w)) = false).
    { rewrite <- (Nat.add_0_r (reads w)). apply Hclosed. lia. }
    rewrite H0.
    unfold bind at 1; unfold console_log at 1, emit at 1.
    unfold bind at 1; unfold sleep at 1, bind at 1, emit at 1.
    unfold await, bind at 1, advance at 1, lift at 1.
    rewrite IH; cbn [ui trace clock reads].
    + f_equal. f_equal.
      * rewrite <- !app_assoc. reflexivity.
      * rewrite backoff_sum_succ. fold (backoff_delay attempt). lia.
      * lia.
    + intros i Hi. replace (S (reads w) + i) with (reads w + S i) by lia.
      apply Hclosed. lia.
Qed.

(** C1. When the channel is first found open on check number [N], with
    [1 <= N <= 5], the session active and the handle present, [sendToModel]
    returns normally after exactly [N] checks; the messages sent are the
    function result, the assistant message and the speech trigger, once
    each, in that order and after everything else the routine did; the
    timers before them are [1000 * 2^i] for [i = 0 .. N-2] and the time
    waited is their sum, [1000 * (2^(N-1) - 1)]. *)
Theorem sendToModel_opens_on_Nth_check :
  forall (N : nat) (props : Props) (ch : RTCDataChannel)
         (text : option string) (st : UI),
    1 <= N <= 5 ->
    dataChannel props = Some ch ->
    isSessionActive props = true ->
    (forall k, k < N - 1 -> is_open (readyState ch k) = false) ->
    is_open (readyState ch (N - 1)) = true ->
    let run := sendToModel props text (start st) in
    fst run = Normal tt
    /\ trace (snd run)
       = (flat_map retry_round (seq 0 (N - 1))
            ++ map SendClientEvent (triple text))%list
    /\ sent (trace (snd run))
       = [function_result; assistant_message text; speech_start text]
    /\ map client_event_type (sent (trace (snd run)))
       = ["function_result"; "conversation.item.create"; "speech.output.start"]
    /\ reads (snd run) = N
    /\ timers (trace (snd run)) = map backoff_delay (seq 0 (N - 1))
    /\ clock (snd run)
       = fold_right Z.add 0%Z
           (map (fun i => (1000 * 2 ^ Z.of_nat i)%Z) (seq 0 (N - 1)))
    /\ clock (snd run) = (1000 * (2 ^ Z.of_nat (N - 1) - 1))%Z
    /\ ui (snd run) = st.
Proof.
  intros N props ch text st HN Hch Hactive Hclosed Hopen run.
  assert (Hrun : run
                 = (Normal tt,
                    mkWorld st
                      (flat_map retry_round (seq 0 (N - 1))
                         ++ map SendClientEvent (triple text))
                      (backoff_sum 0 (N - 1)) N)).
  { unfold run, sendToModel.
    rewrite (sendToModel_loop_opens props ch text Hch Hactive (N - 1));
      cbn [start ui trace clock reads app Nat.add]; try assumption.
    - f_equal. f_equal. lia.
    - unfold maxAttempts. lia. }
  assert (Hsent : sent (trace (snd run)) = triple text).
  { rewrite Hrun. cbn [snd trace].
    rewrite sent_app, sent_retry_rounds. reflexivity. }
  rewrite Hsent. rewrite Hrun. cbn [fst snd ui trace clock reads].
  split; [reflexivity|]. split; [reflexivity|]. split; [reflexivity|].
  split; [reflexivity|]. split; [reflexivity|].
  split; [|split; [reflexivity|split; [|reflexivity]]].
  - rewrite timers_app, timers_retry_rounds.
    cbn. now rewrite app_nil_r.
  - rewrite backoff_sum_closed. change (2 ^ Z.of_nat 0)%Z with 1%Z. lia.
Qed.

Lemma sendToModel_opens_on_Nth_check_witness :
  let run := sendToModel (mkProps true None (Some (opens_at 2)))
               (Some "A cup on a table.") (start initial_ui) in
  sent (trace (snd run))
  = [FunctionResult "take_photo" true;
     ConversationItemCreate "assistant" (Some "A cup on a table.");
     SpeechOutputStart "verse" (Some "A cup on a table.")]
  /\ reads (snd run) = 3
  /\ timers (trace (snd run)) = [1000; 2000]%Z
  /\ clock (snd run) = 3000%Z.
Proof.
  destruct (sendToModel_opens_on_Nth_check 3
              (mkProps true None (Some (opens_at 2))) (opens_at 2)
              (Some "A cup on a table.") initial_ui)
    as (_ & _ & Hsent & _ & Hreads & Htimers & _ & Hclock & _).
  - lia.
  - reflexivity.
  - reflexivity.
  - intros [|[|k]] Hk; try reflexivity. simpl in Hk. lia.
  - reflexivity.
  - repeat split; assumption.
Defined.

(** ** Symbolic runs of [analyzeWithTimeout] and [handlePhotoTaken] *)

Lemma analyzeWithTimeout_in_time (env : Env) (imageData : string) (t : Z)
    (c : Completion Response) (w : World) :
  fetch env "/analyze-image" = SettlesAt t c ->
  (t <= VISION_TIMEOUT)%Z ->
  analyzeWithTimeout env imageData w = (c, after_race imageData t w).
Proof.
  intros Hfetch Ht.
  unfold analyzeWithTimeout, after_race, try_catch, bind, emit, await, ret,
    throw, Promise_race.
  rewrite Hfetch.
  destruct (Z.ltb_spec VISION_TIMEOUT t) as [Hlate|_]; [lia|].
  unfold bind, advance, lift; cbn [ui trace clock reads].
  rewrite <- app_assoc.
  destruct c; reflexivity.
Qed.

Lemma analyzeWithTimeout_late (env : Env) (imageData : string) (w : World) :
  (fetch env "/analyze-image" = Pending
   \/ exists t c, fetch env "/analyze-image" = SettlesAt t c
                  /\ (VISION_TIMEOUT < t)%Z) ->
  analyzeWithTimeout env imageData w
  = (Throw (new_Error timeout_message), after_race imageData VISION_TIMEOUT w).
Proof.
  intros Hfetch.
  unfold analyzeWithTimeout, after_race, try_catch, bind, emit, await, ret,
    throw, Promise_race.
  destruct Hfetch as [Hfetch | (t & c & Hfetch & Ht)]; rewrite Hfetch.
  - unfold bind, advance, lift; cbn [ui trace clock reads].
    rewrite <- app_assoc. reflexivity.
  - destruct (Z.ltb_spec VISION_TIMEOUT t) as [_|Hin]; [|lia].
    unfold bind, advance, lift; cbn [ui trace clock reads].
    rewrite <- app_assoc. reflexivity.
Qed.

(** The [try] statement, by how the race ends and how the body is read. *)
Lemma handlePhotoTaken_resume_run (props : Props) (env : Env)
    (imageData : string) (w w1 : World) (c : Completion Response) :
  analyzeWithTimeout env imageData w = (c, w1) ->
  handlePhotoTaken_resume props env imageData w =
  match c with
  | Normal r =>
      match body r with
      | BodyInvalid msg =>
          handlePhotoTaken_catch props (mkError "SyntaxError" msg) w1
      | BodyJson j =>
          match message_content j with
          | Normal text => (Normal tt, snd (deliver props text (after_parse w1)))
          | Throw e => handlePhotoTaken_catch props e (after_parse w1)
          | Hang => (Hang, after_parse w1)
          end
      | BodySlow ms (inl msg) =>
          handlePhotoTaken_catch props (mkError "SyntaxError" msg) (later ms w1)
      | BodySlow ms (inr j) =>
          match message_content j with
          | Normal text =>
              (Normal tt, snd (deliver props text (after_parse (later ms w1))))
          | Throw e => handlePhotoTaken_catch props e (after_parse (later ms w1))
          | Hang => (Hang, after_parse (later ms w1))
          end
      | BodyStalled => (Hang, w1)
      end
  | Throw e => handlePhotoTaken_catch props e w1
  | Hang => (Hang, w1)
  end.
Proof.
  intros Hrace.
  unfold handlePhotoTaken_resume, try_catch at 1, bind at 1.
  rewrite Hrace.
  destruct c as [r|e|]; try reflexivity.
  unfold bind at 1, json.
  destruct (body r) as [msg|j|ms [msg|j]|]; try reflexivity.
  - unfold ret at 1, bind, console_log, emit, setIsAnalyzing, modify_ui, lift,
      background.
    cbn [ui trace clock reads fst snd].
    fold (after_parse w1). fold (deliver props).
    destruct (message_content j); reflexivity.
  - unfold ret at 1, bind, advance, console_log, emit, setIsAnalyzing,
      modify_ui, lift, background.
    cbn [ui trace clock reads fst snd].
    fold (later ms w1). fold (after_parse (later ms w1)). fold (deliver props).
    destruct (message_content j); reflexivity.
Qed.

Lemma handlePhotoTaken_begin_run (imageData : string) (w : World) :
  handlePhotoTaken_begin imageData w
  = (Normal tt,
     mkWorld (analyzing imageData (ui w))
             (trace w ++ [ConsoleLog "Photo taken"]) (clock w) (reads w)).
Proof. reflexivity. Qed.

(** The [catch] block on an error that is not the timeout. *)
Lemma handlePhotoTaken_catch_other (props : Props) (error : Error) (w : World) :
  message error <> timeout_message ->
  handlePhotoTaken_catch props error w
  = (Normal tt,
     mkWorld (mkUI (showCamera (ui w)) (currentImageFilename (ui w)) false
                   (currentImage (ui w)) (Some (message error)))
             (trace w ++ [ConsoleError "Vision analysis failed:" error])
             (clock w) (reads w)).
Proof.
  intros Hmsg. unfold handlePhotoTaken_catch.
  destruct (String.eqb_spec (message error) timeout_message) as [|_];
    [contradiction|].
  reflexivity.
Qed.

(** The [catch] block on the timeout: one look at the channel, and the
    apology when it is open. *)
Lemma handlePhotoTaken_catch_timeout (props : Props) (error : Error) (w : World) :
  message error = timeout_message ->
  handlePhotoTaken_catch props error w
  = (Normal tt,
     mkWorld (mkUI (showCamera (ui w)) (currentImageFilename (ui w)) false
                   (currentImage (ui w)) (Some timed_out_text))
             (trace w ++ ConsoleError "Vision analysis failed:" error
                ::
                match dataChannel props with
                | Some channel =>
                    if is_open (readyState channel (reads w))
                    then map SendClientEvent apology
                    else []
                | None => []
                end)
             (clock w)
             (match dataChannel props with
              | Some _ => S (reads w)
              | None => reads w
              end)).
Proof.
  intros Hmsg. unfold handlePhotoTaken_catch. rewrite Hmsg.
  rewrite String.eqb_refl.
  destruct (dataChannel props) as [channel|]; [|reflexivity].
  unfold bind, console_error, sendClientEvent, emit, setIsAnalyzing,
    setAnalysisError, modify_ui, read_readyState, ret;
    cbn [ui trace clock reads].
  destruct (is_open (readyState channel (reads w))); cbn;
    rewrite <- ?app_assoc; reflexivity.
Qed.

(** C2. When the handle is present, the session active and the channel is
    not open at any of the 5 checks, [sendToModel] makes exactly 5 checks and
    then fails with the channel-unavailable error, having called
    [sendClientEvent] zero times and changed no UI state; inside
    [handlePhotoTaken] the failure is logged with [console.error] as the
    last thing that happens, the handler itself returns normally, and the
    UI state is the one the finished analysis left. *)
Theorem sendToModel_channel_never_open :
  forall (props : Props) (ch : RTCDataChannel) (text : option string) (st : UI),
    dataChannel props = Some ch ->
    isSessionActive props = true ->
    (forall k, k < 5 -> is_open (readyState ch k) = false) ->
    let run := sendToModel props text (start st) in
    (fst run = Throw channel_unavailable
     /\ reads (snd run) = 5
     /\ sent (trace (snd run)) = []
     /\ ui (snd run) = st)
    /\
    forall (env : Env) (imageData : string) (t : Z) (r : Response),
      fetch env "/analyze-image" = SettlesAt t (Normal r) ->
      (t < VISION_TIMEOUT)%Z ->
      body r = BodyJson (JsonObject (MessageObject text)) ->
      let photo := handlePhotoTaken props env imageData (start st) in
      fst photo = Normal tt
      /\ ui (snd photo) = analyzed imageData st
      /\ sent (trace (snd photo)) = []
      /\ cleanup_requests (trace (snd photo)) = []
      /\ exists before,
           trace (snd photo)
           = (before ++ [ConsoleError "Failed to send to model:"
                           channel_unavailable])%list.
Proof.
  intros props ch text st Hch Hactive Hclosed run.
  split.
  - unfold run, sendToModel.
    rewrite (sendToModel_loop_never props ch text Hch Hactive)
      by (intros i Hi; apply Hclosed; exact Hi).
    cbn [fst snd ui trace clock reads start app].
    split; [reflexivity|]. split; [reflexivity|].
    split; [apply sent_retry_rounds | reflexivity].
  - intros env imageData t r Hfetch Ht Hbody photo.
    unfold photo, handlePhotoTaken, bind.
    rewrite handlePhotoTaken_begin_run.
    rewrite (handlePhotoTaken_resume_run props env imageData _ _ _
               (analyzeWithTimeout_in_time env imageData t _ _ Hfetch
                  (Z.lt_le_incl _ _ Ht))).
    rewrite Hbody. cbn [message_content].
    unfold deliver, try_catch, sendToModel.
    rewrite (sendToModel_loop_never props ch text Hch Hactive)
      by (intros i Hi; apply Hclosed; exact Hi).
    unfold console_error, emit, after_parse, after_race, start.
    cbn [fst snd ui trace clock reads].
    split; [reflexivity|]. split; [reflexivity|].
    split; [|split].
    + rewrite !sent_app, sent_retry_rounds. reflexivity.
    + rewrite !cleanup_requests_app, cleanup_requests_retry_rounds.
      reflexivity.
    + eexists. reflexivity.
Qed.

Lemma sendToModel_channel_never_open_witness :
  let props := mkProps true None (Some never_opens) in
  fst (sendToModel props (Some "A cup on a table.") (start initial_ui))
  = Throw channel_unavailable
  /\
  let photo := handlePhotoTaken props
                 (answers 1200 (described "A cup on a table."))
                 "data:image/jpeg;base64,AAAA" (start initial_ui) in
  fst photo = Normal tt
  /\ ui (snd photo) = analyzed "data:image/jpeg;base64,AAAA" initial_ui
  /\ sent (trace (snd photo)) = [].
Proof.
  destruct (sendToModel_channel_never_open
              (mkProps true None (Some never_opens)) never_opens
              (Some "A cup on a table.") initial_ui)
    as ((Hthrow & _) & Hphoto).
  - reflexivity.
  - reflexivity.
  - intros k Hk. reflexivity.
  - split; [exact Hthrow|].
    destruct (Hphoto (answers 1200 (described "A cup on a table."))
                "data:image/jpeg;base64,AAAA" 1200%Z
                (described "A cup on a table."))
      as (Hret & Hui & Hsent & _).
    + reflexivity.
    + unfold VISION_TIMEOUT. lia.
    + reflexivity.
    + repeat split; assumption.
Defined.

(** ** Lost races *)

Lemma handlePhotoTaken_late (props : Props) (env : Env) (imageData : string)
    (w : World) :
  (fetch env "/analyze-image" = Pending
   \/ exists t c, fetch env "/analyze-image" = SettlesAt t c
                  /\ (VISION_TIMEOUT < t)%Z) ->
  handlePhotoTaken props env imageData w
  = handlePhotoTaken_catch props (new_Error timeout_message)
      (after_race imageData VISION_TIMEOUT
         (snd (handlePhotoTaken_begin imageData w))).
Proof.
  intros Hlate. unfold handlePhotoTaken, bind.
  rewrite handlePhotoTaken_begin_run.
  rewrite (handlePhotoTaken_resume_run props env imageData _ _ _
             (analyzeWithTimeout_late env imageData _ Hlate)).
  reflexivity.
Qed.

(** C4. [VISION_TIMEOUT] is 10000 ms, and whenever the request settles
    strictly later than that, whatever it settles with, the race is
    rejected at 10000 ms with the error "Vision analysis timeout"; the caller
    [handlePhotoTaken] then ends in the timeout error state, never reaches
    the code after the [await] (no "analysis complete" log, no function
    result sent), and its whole run is the same for every late result. *)
Theorem analyzeWithTimeout_late_result_is_timeout :
  forall (env : Env) (imageData : string) (t : Z) (late : Completion Response)
         (props : Props) (st : UI),
    fetch env "/analyze-image" = SettlesAt t late ->
    (VISION_TIMEOUT < t)%Z ->
    VISION_TIMEOUT = 10000%Z
    /\ analyzeWithTimeout env imageData (start st)
       = (Throw (new_Error "Vision analysis timeout"),
          after_race imageData 10000 (start st))
    /\ let run := handlePhotoTaken props env imageData (start st) in
       ui (snd run) = analysis_failed imageData timed_out_text st
       /\ logged "Vision analysis complete:" (trace (snd run)) = false
       /\ ~ In function_result (sent (trace (snd run)))
       /\ forall (env' : Env) (t' : Z) (late' : Completion Response),
            fetch env' "/analyze-image" = SettlesAt t' late' ->
            (VISION_TIMEOUT < t')%Z ->
            handlePhotoTaken props env' imageData (start st) = run.
Proof.
  intros env imageData t late props st Hfetch Ht.
  assert (Hlate : fetch env "/analyze-image" = Pending
                  \/ exists t c, fetch env "/analyze-image" = SettlesAt t c
                                 /\ (VISION_TIMEOUT < t)%Z)
    by (right; eauto).
  split; [reflexivity|]. split.
  - apply analyzeWithTimeout_late. exact Hlate.
  - intros run. unfold run.
    rewrite (handlePhotoTaken_late props env imageData _ Hlate).
    split; [|split; [|split]].
    + rewrite handlePhotoTaken_catch_timeout by reflexivity. reflexivity.
    + rewrite handlePhotoTaken_catch_timeout by reflexivity.
      cbn [snd trace]. unfold logged. rewrite existsb_app.
      destruct (dataChannel props) as [channel|]; [|reflexivity].
      destruct (is_open _); reflexivity.
    + rewrite handlePhotoTaken_catch_timeout by reflexivity.
      cbn [snd trace]. rewrite sent_app.
      destruct (dataChannel props) as [channel|];
        [destruct (is_open _)|]; cbn; intuition discriminate.
    + intros env' t' late' Hfetch' Ht'.
      apply handlePhotoTaken_late. right; eauto.
Qed.

Lemma analyzeWithTimeout_late_result_is_timeout_witness :
  let run := handlePhotoTaken (mkProps true None (Some (opens_at 0)))
               (answers 11000 (described "A cup on a table."))
               "data:image/jpeg;base64,AAAA" (start initial_ui) in
  analysisError (ui (snd run)) = Some "Vision analysis timed out. Please try again."
  /\ logged "Vision analysis complete:" (trace (snd run)) = false.
Proof.
  destruct (analyzeWithTimeout_late_result_is_timeout
              (answers 11000 (described "A cup on a table."))
              "data:image/jpeg;base64,AAAA" 11000%Z
              (Normal (described "A cup on a table."))
              (mkProps true None (Some (opens_at 0))) initial_ui)
    as (_ & _ & Hui & Hlog & _).
  - reflexivity.
  - unfold VISION_TIMEOUT. lia.
  - cbv zeta. rewrite Hui. split; [reflexivity | exact Hlog].
Defined.

(** ** Failed analyses *)

(** C9 (amended).  When the analysis fails with the timeout error, the
    error text is the dedicated timeout text and the [catch] block itself
    looks at the channel, once and outside [sendToModel]: no retry, no
    backoff timer, no test of the session flag.  If a handle exists and is
    open at that one look, exactly two messages are sent, the assistant
    message and then the speech trigger, with no function result; if not,
    nothing is sent.  On an error with any other message the [catch] block
    sends nothing and the error text is that message. *)
Theorem timeout_apology :
  forall (props : Props) (st : UI) (imageData : string),
    (forall env : Env,
        (fetch env "/analyze-image" = Pending
         \/ exists t c, fetch env "/analyze-image" = SettlesAt t c
                        /\ (VISION_TIMEOUT < t)%Z) ->
        let run := handlePhotoTaken props env imageData (start st) in
        fst run = Normal tt
        /\ ui (snd run) = analysis_failed imageData timed_out_text st
        /\ sent (trace (snd run))
           = match dataChannel props with
             | Some channel =>
                 if is_open (readyState channel 0)
                 then [ConversationItemCreate "assistant" (Some timed_out_text);
                       SpeechOutputStart "verse" (Some apology_speech)]
                 else []
             | None => []
             end
        /\ reads (snd run)
           = match dataChannel props with
             | Some _ => 1%nat
             | None => 0%nat
             end
        /\ timers (trace (snd run)) = [VISION_TIMEOUT])
    /\ (forall (error : Error) (w : World),
          message error <> timeout_message ->
          let run := handlePhotoTaken_catch props error w in
          analysisError (ui (snd run)) = Some (message error)
          /\ sent (trace (snd run)) = sent (trace w))
    /\ (forall (env : Env) (t : Z) (error : Error),
          fetch env "/analyze-image" = SettlesAt t (Throw error) ->
          (t < VISION_TIMEOUT)%Z ->
          message error <> timeout_message ->
          let run := handlePhotoTaken props env imageData (start st) in
          ui (snd run) = analysis_failed imageData (message error) st
          /\ sent (trace (snd run)) = []).
Proof.
  intros props st imageData. split; [|split].
  - intros env Hlate run. unfold run.
    rewrite (handlePhotoTaken_late props env imageData _ Hlate).
    rewrite handlePhotoTaken_catch_timeout by reflexivity.
    rewrite handlePhotoTaken_begin_run.
    cbn [fst snd ui trace reads after_race start].
    split; [reflexivity|]. split; [reflexivity|].
    rewrite sent_app, timers_app.
    destruct (dataChannel props) as [channel|];
      [|split; [|split]; reflexivity].
    destruct (is_open (readyState channel 0)); split; [|split| |split];
      reflexivity.
  - intros error w Hmsg run. unfold run.
    rewrite handlePhotoTaken_catch_other by exact Hmsg.
    cbn [snd ui trace analysisError]. split; [reflexivity|].
    rewrite sent_app. cbn. apply app_nil_r.
  - intros env t error Hfetch Ht Hmsg run.
    unfold run, handlePhotoTaken, bind.
    rewrite handlePhotoTaken_begin_run.
    rewrite (handlePhotoTaken_resume_run props env imageData _ _ _
               (analyzeWithTimeout_in_time env imageData t _ _ Hfetch
                  (Z.lt_le_incl _ _ Ht))).
    rewrite handlePhotoTaken_catch_other by exact Hmsg.
    split; reflexivity.
Qed.

Lemma timeout_apology_witness :
  let run := handlePhotoTaken (mkProps true None (Some (opens_at 0)))
               (answers 11000 (described "A cup on a table."))
               "data:image/jpeg;base64,AAAA" (start initial_ui) in
  sent (trace (snd run))
  = [ConversationItemCreate "assistant"
       (Some "Vision analysis timed out. Please try again.");
     SpeechOutputStart "verse"
       (Some "I'm sorry, but the vision analysis timed out. Please try taking another photo.")].
Proof.
  destruct (timeout_apology (mkProps true None (Some (opens_at 0))) initial_ui
              "data:image/jpeg;base64,AAAA") as (Htimeout & _).
  destruct (Htimeout (answers 11000 (described "A cup on a table.")))
    as (_ & _ & Hsent & _).
  - right. exists 11000%Z, (Normal (described "A cup on a table.")).
    split; [reflexivity | unfold VISION_TIMEOUT; lia].
  - exact Hsent.
Defined.

(** C8, as stated, fails: the status of the response is never looked at and
    a [message] without [content] raises nothing.  A 413 reply whose body
    has a [message] string, and a 200 reply whose [message] object has no
    [content], both arriving well before the timer, are delivered as
    successes: no error text, and the three messages sent with an undefined
    text. *)
Lemma unchecked_response_is_delivered :
  (ok payload_too_large = false
   /\ read_failure payload_too_large = None
   /\ analysisError
        (ui (snd (handlePhotoTaken (mkProps true None (Some (opens_at 0)))
                    (answers 1200 payload_too_large) sample_image
                    (start initial_ui))))
      = None
   /\ sent
        (trace (snd (handlePhotoTaken (mkProps true None (Some (opens_at 0)))
                       (answers 1200 payload_too_large) sample_image
                       (start initial_ui))))
      = triple None)
  /\ (body without_content = BodyJson (JsonObject (MessageObject None))
      /\ analysisError
           (ui (snd (handlePhotoTaken (mkProps true None (Some (opens_at 0)))
                       (answers 1200 without_content) sample_image
                       (start initial_ui))))
         = None
      /\ sent
           (trace (snd (handlePhotoTaken (mkProps true None (Some (opens_at 0)))
                          (answers 1200 without_content) sample_image
                          (start initial_ui))))
         = triple None).
Proof. repeat split. Qed.

(** C8, amended.  When the request resolves before the timer and
    reading the response raises an error (the body is not JSON, is [null],
    or has no [message] object, as every error reply of the server), the
    handler takes its error path whatever the status: it returns normally,
    the error text is the message of that error, the analyzing flag is
    cleared, the error is logged last and nothing is sent. *)
Theorem unreadable_response_fails :
  forall (props : Props) (env : Env) (imageData : string) (t : Z)
         (r : Response) (error : Error) (st : UI),
    fetch env "/analyze-image" = SettlesAt t (Normal r) ->
    (t < VISION_TIMEOUT)%Z ->
    read_failure r = Some error ->
    message error <> timeout_message ->
    let run := handlePhotoTaken props env imageData (start st) in
    fst run = Normal tt
    /\ ui (snd run) = analysis_failed imageData (message error) st
    /\ sent (trace (snd run)) = []
    /\ exists before,
         trace (snd run)
         = (before ++ [ConsoleError "Vision analysis failed:" error])%list.
Proof.
  intros props env imageData t r error st Hfetch Ht Hread Hmsg run.
  unfold run, handlePhotoTaken, bind.
  rewrite handlePhotoTaken_begin_run.
  rewrite (handlePhotoTaken_resume_run props env imageData _ _ _
             (analyzeWithTimeout_in_time env imageData t _ _ Hfetch
                (Z.lt_le_incl _ _ Ht))).
  unfold read_failure in Hread.
  destruct (body r) as [msg|j|ms [msg|j]|]; try discriminate.
  - injection Hread as <-.
    rewrite handlePhotoTaken_catch_other by exact Hmsg.
    repeat split. eexists. reflexivity.
  - destruct (message_content j) as [text|e|]; try discriminate.
    injection Hread as <-.
    rewrite handlePhotoTaken_catch_other by exact Hmsg.
    repeat split. eexists. reflexivity.
  - injection Hread as <-.
    rewrite handlePhotoTaken_catch_other by exact Hmsg.
    repeat split. eexists. reflexivity.
  - destruct (message_content j) as [text|e|]; try discriminate.
    injection Hread as <-.
    rewrite handlePhotoTaken_catch_other by exact Hmsg.
    repeat split. eexists. reflexivity.
Qed.

Lemma unreadable_response_fails_witness :
  let run := handlePhotoTaken (mkProps true None (Some (opens_at 0)))
               (answers 1200 (server_error 500))
               "data:image/jpeg;base64,AAAA" (start initial_ui) in
  analysisError (ui (snd run))
  = Some "Cannot read properties of undefined (reading 'content')"
  /\ isAnalyzing (ui (snd run)) = false
  /\ sent (trace (snd run)) = [].
Proof.
  destruct (unreadable_response_fails
              (mkProps true None (Some (opens_at 0)))
              (answers 1200 (server_error 500))
              "data:image/jpeg;base64,AAAA" 1200%Z (server_error 500)
              (new_TypeError
                 "Cannot read properties of undefined (reading 'content')")
              initial_ui)
    as (_ & Hui & Hsent & _).
  - reflexivity.
  - unfold VISION_TIMEOUT. lia.
  - reflexivity.
  - discriminate.
  - cbv zeta. rewrite Hui.
    split; [reflexivity|]. split; [reflexivity | exact Hsent].
Defined.

(** ** The image filename is never set *)

Lemma keeps_ret {A} (a : A) : keeps (ret a).
Proof. intros w H; exact H. Qed.

Lemma keeps_throw {A} (e : Error) : keeps (@throw A e).
Proof. intros w H; exact H. Qed.

Lemma keeps_lift {A} (c : Completion A) : keeps (lift c).
Proof. intros w H; exact H. Qed.

Lemma keeps_bind {A B} (m : M A) (k : A -> M B) :
  keeps m -> (forall a, keeps (k a)) -> keeps (bind m k).
Proof.
  intros Hm Hk w H. unfold bind.
  specialize (Hm w H).
  destruct (m w) as [[a|e|] w']; cbn [snd] in *; auto.
  apply Hk; assumption.
Qed.

Lemma keeps_try_catch {A} (m : M A) (h : Error -> M A) :
  keeps m -> (forall e, keeps (h e)) -> keeps (try_catch m h).
Proof.
  intros Hm Hh w H. unfold try_catch.
  specialize (Hm w H).
  destruct (m w) as [[a|e|] w']; cbn [snd] in *; auto.
  apply Hh; assumption.
Qed.

Lemma keeps_background {A} (m : M A) : keeps m -> keeps (background m).
Proof. intros Hm w H. apply Hm, H. Qed.

Lemma keeps_emit (a : Action) : cleanup_requests [a] = [] -> keeps (emit a).
Proof.
  intros Ha w [Hf Hc]. split; [exact Hf|].
  cbn [snd emit trace]. now rewrite cleanup_requests_app, Hc, Ha.
Qed.

Lemma keeps_modify_ui (f : UI -> UI) :
  (forall s, currentImageFilename (f s) = currentImageFilename s) ->
  keeps (modify_ui f).
Proof.
  intros Hf w [Hname Hc]. split; [|exact Hc].
  cbn [snd modify_ui ui]. now rewrite Hf.
Qed.

Lemma keeps_advance (ms : Z) : keeps (advance ms).
Proof. intros w H; exact H. Qed.

Lemma keeps_read_readyState (ch : RTCDataChannel) : keeps (read_readyState ch).
Proof. intros w H; exact H. Qed.

Lemma keeps_await {A} (p : Promise A) : keeps (await p).
Proof.
  destruct p as [t c|]; cbn [await].
  - apply keeps_bind; [apply keeps_advance | intros _; apply keeps_lift].
  - apply keeps_lift.
Qed.

Create HintDb keeps.
#[local] Hint Resolve keeps_ret keeps_throw keeps_lift keeps_try_catch
  keeps_background keeps_advance keeps_read_readyState keeps_await : keeps.

Ltac keeps_step :=
  first
    [ apply keeps_bind; [|intro]
    | apply keeps_emit; reflexivity
    | apply keeps_modify_ui; intro; reflexivity
    | solve [auto with keeps] ].

Ltac keeps_run := repeat keeps_step.

Lemma keeps_events_effect (props : Props) : keeps (events_effect props).
Proof.
  unfold events_effect.
  destruct (events props) as [[|e older]|]; try apply keeps_ret.
  unfold console_log, setShowCamera, setAnalysisError.
  keeps_run.
  match goal with |- keeps (if ?b then _ else _) => destruct b end;
    [|apply keeps_ret].
  keeps_run.
  match goal with |- keeps (if ?b then _ else _) => destruct b end;
    keeps_run.
Qed.

Lemma keeps_onClose : keeps onClose.
Proof. unfold onClose, setShowCamera. keeps_run. Qed.

Lemma keeps_handlePhotoTaken_begin (imageData : string) :
  keeps (handlePhotoTaken_begin imageData).
Proof.
  unfold handlePhotoTaken_begin, console_log, setShowCamera, setCurrentImage,
    setIsAnalyzing, setAnalysisError.
  keeps_run.
Qed.

Lemma keeps_sendToModel_loop (props : Props) (text : option string)
    (remaining : nat) :
  forall attempt, keeps (sendToModel_loop props text remaining attempt).
Proof.
  induction remaining as [|remaining IH]; intro attempt;
    cbn [sendToModel_loop]; [apply keeps_throw|].
  unfold console_log, sendClientEvent, sleep.
  destruct (dataChannel props) as [channel|];
    [destruct (isSessionActive props)|]; keeps_run.
  match goal with |- keeps (if ?b then _ else _) => destruct b end;
    keeps_run.
Qed.

Lemma keeps_analyzeWithTimeout (env : Env) (imageData : string) :
  keeps (analyzeWithTimeout env imageData).
Proof.
  unfold analyzeWithTimeout.
  apply keeps_bind; [apply keeps_emit; reflexivity | intros _].
  cbv zeta. apply keeps_try_catch; [keeps_run | intro; apply keeps_throw].
Qed.

Lemma keeps_handlePhotoTaken_catch (props : Props) (error : Error) :
  keeps (handlePhotoTaken_catch props error).
Proof.
  unfold handlePhotoTaken_catch, console_error, sendClientEvent,
    setIsAnalyzing, setAnalysisError.
  keeps_run.
  destruct (message error =? timeout_message); keeps_run.
  destruct (dataChannel props) as [channel|]; keeps_run.
  match goal with |- keeps (if ?b then _ else _) => destruct b end;
    keeps_run.
Qed.

Lemma keeps_handlePhotoTaken_resume (props : Props) (env : Env)
    (imageData : string) :
  keeps (handlePhotoTaken_resume props env imageData).
Proof.
  unfold handlePhotoTaken_resume.
  apply keeps_try_catch; [|apply keeps_handlePhotoTaken_catch].
  apply keeps_bind; [apply keeps_analyzeWithTimeout | intro response].
  apply keeps_bind;
    [unfold json; destruct (body response) as [msg|j|ms [msg|j]|]; keeps_run
    | intro].
  unfold console_log, setIsAnalyzing, console_error.
  keeps_run.
  apply keeps_background, keeps_try_catch;
    [apply keeps_sendToModel_loop | intro; keeps_run].
Qed.

(** With no filename held, the session effect never reaches
    [cleanupSession]. *)
Lemma keeps_session_effect (props : Props) (env : Env) :
  keeps (session_effect props env).
Proof.
  intros w [Hname Hc]. unfold session_effect, bind at 1, get_ui.
  rewrite Hname.
  destruct (isSessionActive props); cbn; split; assumption.
Qed.

Lemma step_keeps_filename_unset (w w' : World) :
  step w w' -> filename_unset w -> filename_unset w'.
Proof.
  intros Hstep. destruct Hstep.
  - apply keeps_events_effect.
  - apply keeps_session_effect.
  - apply keeps_onClose.
  - apply keeps_handlePhotoTaken_begin.
  - apply keeps_handlePhotoTaken_resume.
Qed.

Lemma reachable_filename_unset (w : World) : reachable w -> filename_unset w.
Proof.
  intros Hreach.
  induction Hreach as [|w w' _ IH Hstep].
  - split; reflexivity.
  - exact (step_keeps_filename_unset w w' Hstep IH).
Qed.

(** C10. In every reachable state of ToolPanel [currentImageFilename] is
    null, and no request to /cleanup-image has been made. *)
Theorem currentImageFilename_always_null :
  forall w : World,
    reachable w ->
    currentImageFilename (ui w) = None /\ cleanup_requests (trace w) = [].
Proof.
  intros w Hreach. exact (reachable_filename_unset w Hreach).
Qed.

Lemma described_to_user_reachable : reachable described_to_user.
Proof.
  apply (reachable_step captured); [|apply step_photo_resume].
  apply (reachable_step asked); [|apply step_photo_begin].
  apply (reachable_step (start initial_ui)); [|apply step_events].
  apply reachable_start.
Qed.

Lemma session_ended_reachable : reachable session_ended.
Proof.
  apply (reachable_step described_to_user); [|apply step_session].
  apply described_to_user_reachable.
Qed.

Lemma currentImageFilename_always_null_witness :
  currentImageFilename (ui session_ended) = None
  /\ cleanup_requests (trace session_ended) = [].
Proof.
  apply (currentImageFilename_always_null session_ended).
  apply (reachable_step described_to_user); [|apply step_session].
  apply (reachable_step captured); [|apply step_photo_resume].
  apply (reachable_step asked); [|apply step_photo_begin].
  apply (reachable_step (start initial_ui)); [|apply step_events].
  apply reachable_start.
Defined.

(** ** The end of the session *)

(** What the effect would do if a filename were ever held: one request
    for that file, and everything reset. *)
Lemma session_effect_with_filename (props : Props) (env : Env) (st : UI)
    (filename : string) :
  isSessionActive props = false ->
  currentImageFilename st = Some filename ->
  filename <> "" ->
  cleanup_requests (trace (snd (session_effect props env (start st))))
  = [filename]
  /\ ui (snd (session_effect props env (start st))) = initial_ui.
Proof.
  intros Hinactive Hname Hnonempty.
  destruct st as [shown name analyzing image err].
  cbn [currentImageFilename] in Hname. subst name.
  assert (Htruthy : negb (filename =? "") = true)
    by (destruct (String.eqb_spec filename ""); [contradiction | reflexivity]).
  split;
    unfold session_effect, bind at 1, get_ui;
    cbn [start ui currentImageFilename];
    rewrite Hinactive; cbn [negb truthy]; rewrite Htruthy;
    unfold cleanupSession, try_catch, background, bind, await,
      setShowCamera, setIsAnalyzing, setCurrentImage, setAnalysisError,
      setCurrentImageFilename, modify_ui, console_error, emit, ret;
    cbn [ui trace clock reads fst snd];
    destruct (fetch env "/cleanup-image") as [t [r|e|]|]; reflexivity.
Qed.

(** The session effect on a reachable state: everything is reset and no
    cleanup request is made, whether or not an image is shown. *)
Lemma session_effect_reachable (props : Props) (env : Env) (w : World) :
  reachable w ->
  isSessionActive props = false ->
  cleanup_requests (trace (snd (session_effect props env w))) = []
  /\ ui (snd (session_effect props env w)) = initial_ui.
Proof.
  intros Hreach Hinactive.
  destruct (reachable_filename_unset w Hreach) as [Hname Hc].
  split;
    unfold session_effect, bind at 1, get_ui;
    rewrite Hinactive, Hname; cbn; rewrite ?Hname;
    [exact Hc | reflexivity].
Qed.

(** C5, on the code.  A photo is taken and described, so an image is set;
    the session then ends.  The four pieces of UI state are reset, but no
    request to /cleanup-image is made. *)
Theorem session_end_after_capture_requests_no_cleanup :
  currentImage (ui described_to_user) = Some sample_image
  /\ ui session_ended = mkUI false None false None None
  /\ cleanup_requests (trace session_ended) = [].
Proof. repeat split. Qed.

(** ** A request for a photo during the analysis *)

(** C6, as stated, fails: in the analyzing state (camera hidden, analysis in
    progress) a new take_photo event shows the camera again. *)
Lemma take_photo_while_analyzing_reshows_camera :
  isAnalyzing (ui captured) = true
  /\ showCamera (ui captured) = false
  /\ showCamera (ui asked_again) = true
  /\ isAnalyzing (ui asked_again) = true.
Proof. repeat split. Qed.

(** C6, amended.  The events effect does not look at the analyzing flag:
    while an analysis is in progress a take_photo invocation is detected as
    in any other state, so the camera is shown again and the error text
    cleared, and the analyzing flag and the current image stay as they
    were. *)
Theorem take_photo_while_analyzing :
  forall (active : bool) (ch : option RTCDataChannel)
         (e : RealtimeEvent) (older : list RealtimeEvent) (st : UI),
    isAnalyzing st = true ->
    Spec.take_photo_invoked e = true ->
    let after :=
      ui (snd (events_effect (mkProps active (Some (e :: older)) ch) (start st))) in
    showCamera after = true
    /\ analysisError after = None
    /\ isAnalyzing after = true
    /\ currentImage after = currentImage st.
Proof.
  intros active ch e older st Hanalyzing Hinvoked after. unfold after.
  rewrite events_effect_run, Hinvoked. cbn [snd ui camera_requested].
  repeat split; assumption.
Qed.

Lemma take_photo_while_analyzing_witness :
  showCamera
    (ui (snd (events_effect (mkProps true (Some [direct_take_photo]) None)
                (start (analyzing sample_image initial_ui)))))
  = true.
Proof.
  destruct (take_photo_while_analyzing true None direct_take_photo []
              (analyzing sample_image initial_ui))
    as (Hshown & _).
  - reflexivity.
  - reflexivity.
  - exact Hshown.
Defined.

(** ** The camera stream *)

(** Had the cleanup function seen the stream, it would have stopped every
    track of it. *)
Lemma stop_all (tracks : list CameraModal.MediaStreamTrack) :
  forall live : CameraModal.Device,
    (forall x, In x live -> In x tracks) ->
    fold_left (fun l track => CameraModal.stop track l) tracks live = [].
Proof.
  induction tracks as [|t tracks IH]; intros live Hsub; cbn [fold_left].
  - destruct live as [|x live]; [reflexivity|].
    destruct (Hsub x (or_introl eq_refl)).
  - apply IH. intros x Hx. unfold CameraModal.stop in Hx.
    apply in_remove in Hx. destruct Hx as [Hx Hneq].
    destruct (Hsub x Hx) as [Heq|Hin]; [congruence | exact Hin].
Qed.

Lemma effect_cleanup_of_current_state (mediaStream : CameraModal.MediaStream) :
  CameraModal.effect_cleanup
    (CameraModal.state
       (fst (CameraModal.setupCamera_settled (CameraModal.Granted mediaStream)
               CameraModal.mount [])))
    (CameraModal.getTracks mediaStream)
  = [].
Proof.
  cbn. apply stop_all. auto.
Qed.

(** C7, on the code.  The cleanup function kept for the effect was created
    by the first render, whose [stream] is null; so on every way out of the
    modal no track is stopped: the tracks of the granted stream are still
    capturing after the modal is gone. *)
Theorem camera_stream_not_released :
  forall (mediaStream : CameraModal.MediaStream) (how : CameraModal.Exit)
         (live : CameraModal.Device),
    CameraModal.leave how
      (fst (CameraModal.setupCamera_settled (CameraModal.Granted mediaStream)
              CameraModal.mount live))
      (snd (CameraModal.setupCamera_settled (CameraModal.Granted mediaStream)
              CameraModal.mount live))
    = (live ++ CameraModal.getTracks mediaStream)%list.
Proof. intros mediaStream how live. destruct how; reflexivity. Qed.

(** * Further properties of the code *)

(** ** [sendToModel] under any behaviour of the channel *)

Lemma backoff_delay_nonneg (attempt : nat) : (0 <= backoff_delay attempt)%Z.
Proof.
  unfold backoff_delay, baseDelay.
  assert (0 <= 2 ^ Z.of_nat attempt)%Z by (apply Z.pow_nonneg; lia). lia.
Qed.

Lemma backoff_sum_nonneg (n from : nat) : (0 <= backoff_sum from n)%Z.
Proof.
  revert from. induction n as [|n IH]; intro from.
  - unfold backoff_sum; simpl; lia.
  - rewrite backoff_sum_succ.
    pose proof (backoff_delay_nonneg from). pose proof (IH (S from)). lia.
Qed.

(** One round of the loop on a closed channel. *)
Lemma sendToModel_loop_closed_step (props : Props) (ch : RTCDataChannel)
    (text : option string) (remaining attempt : nat) (w : World) :
  dataChannel props = Some ch ->
  isSessionActive props = true ->
  is_open (readyState ch (reads w)) = false ->
  sendToModel_loop props text (S remaining) attempt w
  = sendToModel_loop props text remaining (S attempt)
      (mkWorld (ui w) (trace w ++ retry_round attempt)
               (clock w + backoff_delay attempt) (S (reads w))).
Proof.
  intros Hch Hactive Hclosed.
  cbn [sendToModel_loop]. rewrite Hch, Hactive.
  unfold bind at 1; unfold read_readyState at 1. rewrite Hclosed.
  unfold bind at 1; unfold console_log at 1, emit at 1.
  unfold bind at 1; unfold sleep at 1, bind at 1, emit at 1.
  unfold await, bind at 1, advance at 1, lift at 1.
  cbn [ui trace clock reads]. rewrite <- app_assoc. reflexivity.
Qed.

Lemma sendToModel_loop_open_step (props : Props) (ch : RTCDataChannel)
    (text : option string) (remaining attempt : nat) (w : World) :
  dataChannel props = Some ch ->
  isSessionActive props = true ->
  is_open (readyState ch (reads w)) = true ->
  sendToModel_loop props text (S remaining) attempt w
  = (Normal tt,
     mkWorld (ui w) (trace w ++ map SendClientEvent (triple text))
             (clock w) (S (reads w))).
Proof.
  intros Hch Hactive Hopen.
  cbn [sendToModel_loop]. rewrite Hch, Hactive.
  unfold bind at 1; unfold read_readyState at 1. rewrite Hopen.
  unfold bind, sendClientEvent, emit, ret; cbn [ui trace clock reads].
  rewrite <- !app_assoc. reflexivity.
Qed.

Lemma sendToModel_loop_abort_step (props : Props) (text : option string)
    (remaining attempt : nat) (w : World) :
  dataChannel props = None \/ isSessionActive props = false ->
  sendToModel_loop props text (S remaining) attempt w
  = (Normal tt,
     mkWorld (ui w)
             (trace w ++ [ConsoleLog "Session no longer active, stopping retry"])
             (clock w) (reads w)).
Proof.
  intros Habort. cbn [sendToModel_loop].
  destruct (dataChannel props) as [ch|];
    [destruct (isSessionActive props)|]; try reflexivity.
  destruct Habort; discriminate.
Qed.

Lemma sendToModel_loop_outcomes (props : Props) (text : option string) :
  forall (remaining attempt : nat) (w : World),
  exists delta,
    trace (snd (sendToModel_loop props text remaining attempt w))
    = (trace w ++ delta)%list
    /\ ui (snd (sendToModel_loop props text remaining attempt w)) = ui w
    /\ reads w <= reads (snd (sendToModel_loop props text remaining attempt w))
       <= reads w + remaining
    /\ (clock w <= clock (snd (sendToModel_loop props text remaining attempt w))
        <= clock w + backoff_sum attempt remaining)%Z
    /\ ((fst (sendToModel_loop props text remaining attempt w) = Normal tt
         /\ (sent delta = [] \/ sent delta = triple text))
        \/ (fst (sendToModel_loop props text remaining attempt w)
            = Throw channel_unavailable
            /\ sent delta = []))
    /\ cleanup_requests delta = []
    /\ console_errors delta = [].
Proof.
  induction remaining as [|remaining IH]; intros attempt w.
  - exists []. cbn [sendToModel_loop throw fst snd].
    rewrite app_nil_r. unfold backoff_sum; cbn.
    repeat split; try lia. right. split; reflexivity.
  - destruct (dataChannel props) as [ch|] eqn:Hch;
      [destruct (isSessionActive props) eqn:Hactive|].
    + destruct (is_open (readyState ch (reads w))) eqn:Hstate.
      * rewrite (sendToModel_loop_open_step props ch text remaining attempt w
                   Hch Hactive Hstate).
        exists (map SendClientEvent (triple text)).
        cbn [fst snd ui trace clock reads].
        pose proof (backoff_sum_nonneg (S remaining) attempt).
        repeat split; try lia. left. split; [reflexivity | right; reflexivity].
      * rewrite (sendToModel_loop_closed_step props ch text remaining attempt w
                   Hch Hactive Hstate).
        destruct (IH (S attempt)
                    (mkWorld (ui w) (trace w ++ retry_round attempt)
                             (clock w + backoff_delay attempt) (S (reads w))))
          as (delta & Htrace & Hui & Hreads & Hclock & Hout & Hclean & Herr).
        cbn [ui trace clock reads] in Htrace, Hui, Hreads, Hclock.
        exists (retry_round attempt ++ delta)%list.
        rewrite Htrace, Hui, backoff_sum_succ.
        pose proof (backoff_delay_nonneg attempt).
        split; [now rewrite app_assoc|]. split; [reflexivity|].
        split; [lia|]. split; [lia|].
        rewrite sent_app, cleanup_requests_app.
        unfold console_errors. rewrite flat_map_app.
        fold (console_errors delta). rewrite Hclean, Herr.
        split; [exact Hout|]. split; reflexivity.
    + rewrite (sendToModel_loop_abort_step props text remaining attempt w)
        by (right; exact Hactive).
      exists [ConsoleLog "Session no longer active, stopping retry"].
      cbn [fst snd ui trace clock reads].
      pose proof (backoff_sum_nonneg (S remaining) attempt).
      repeat split; try lia. left. split; [reflexivity | left; reflexivity].
    + rewrite (sendToModel_loop_abort_step props text remaining attempt w)
        by (left; exact Hch).
      exists [ConsoleLog "Session no longer active, stopping retry"].
      cbn [fst snd ui trace clock reads].
      pose proof (backoff_sum_nonneg (S remaining) attempt).
      repeat split; try lia. left. split; [reflexivity | left; reflexivity].
Qed.

(** X1. Whatever the channel does, [sendToModel] comes to an end: it
    returns, or throws the channel-unavailable error; it reads the channel
    state at most 5 times and waits at most 31 seconds; what it sends is
    nothing or the whole triple, never a part of it and never twice, and
    nothing when it throws; and it leaves the UI state alone. *)
Theorem sendToModel_bounded :
  forall (props : Props) (text : option string) (w : World),
  exists delta,
    trace (snd (sendToModel props text w)) = (trace w ++ delta)%list
    /\ ui (snd (sendToModel props text w)) = ui w
    /\ reads (snd (sendToModel props text w)) <= reads w + 5
    /\ (clock w <= clock (snd (sendToModel props text w)) <= clock w + 31000)%Z
    /\ ((fst (sendToModel props text w) = Normal tt
         /\ (sent delta = []
             \/ sent delta = [function_result; assistant_message text;
                              speech_start text]))
        \/ (fst (sendToModel props text w) = Throw channel_unavailable
            /\ sent delta = [])).
Proof.
  intros props text w. unfold sendToModel.
  destruct (sendToModel_loop_outcomes props text maxAttempts 0 w)
    as (delta & Htrace & Hui & Hreads & Hclock & Hout & _).
  exists delta.
  change (backoff_sum 0 maxAttempts) with 31000%Z in Hclock.
  unfold maxAttempts in *.
  repeat split; try assumption; try lia.
Qed.

(** ** [handlePhotoTaken] as a whole *)



(** The background delivery never fails towards its caller and never
    touches the UI state. *)
Lemma deliver_outcomes (props : Props) (text : option string) (w : World) :
  fst (deliver props text w) = Normal tt
  /\ ui (snd (deliver props text w)) = ui w
  /\ exists delta,
       trace (snd (deliver props text w)) = (trace w ++ delta)%list
       /\ (sent delta = [] \/ sent delta = triple text)
       /\ cleanup_requests delta = [].
Proof.
  unfold deliver, try_catch, sendToModel.
  destruct (sendToModel_loop_outcomes props text maxAttempts 0 w)
    as (delta & Htrace & Hui & _ & _ & Hout & Hclean & _).
  destruct (sendToModel_loop props text maxAttempts 0 w) as [c w'].
  cbn [fst snd] in *.
  destruct Hout as [[-> Hsent] | [-> Hsent]].
  - split; [reflexivity|]. split; [exact Hui|].
    exists delta. repeat split; assumption.
  - unfold console_error, emit; cbn [fst snd ui trace].
    split; [reflexivity|]. split; [exact Hui|].
    exists (delta ++ [ConsoleError "Failed to send to model:" channel_unavailable])%list.
    rewrite Htrace, app_assoc, sent_app, cleanup_requests_app, Hsent, Hclean.
    repeat split. left; reflexivity.
Qed.

(** The [catch] block always returns, with the analyzing flag cleared and
    an error text set. *)
Lemma handlePhotoTaken_catch_settles (props : Props) (error : Error) (w : World) :
  fst (handlePhotoTaken_catch props error w) = Normal tt
  /\ ui (snd (handlePhotoTaken_catch props error w))
     = mkUI (showCamera (ui w)) (currentImageFilename (ui w)) false
            (currentImage (ui w))
            (Some (if message error =? timeout_message
                   then timed_out_text else message error)).
Proof.
  destruct (String.eqb_spec (message error) timeout_message) as [Heq|Hneq].
  - rewrite handlePhotoTaken_catch_timeout by exact Heq. split; reflexivity.
  - rewrite handlePhotoTaken_catch_other by exact Hneq. split; reflexivity.
Qed.






(** ** The events effect beyond the detection *)

(** X5. The events effect looks at the newest event only: older events, the
    session flag and the channel make no difference to what it does.  All it
    ever does besides the two setters of a detection is [console.log]: it
    sends nothing, requests nothing, sets no timer, and leaves the analyzing
    flag, the image and the filename as they are.  With no events at all
    it does nothing. *)
Theorem events_effect_newest_only :
  forall (active active' : bool) (ch ch' : option RTCDataChannel)
         (e : RealtimeEvent) (older older' : list RealtimeEvent) (w : World),
    events_effect (mkProps active (Some (e :: older)) ch) w
    = events_effect (mkProps active' (Some (e :: older')) ch') w
    /\ (exists delta,
          trace (snd (events_effect (mkProps active (Some (e :: older)) ch) w))
          = (trace w ++ delta)%list
          /\ only_logs delta = true)
    /\ isAnalyzing (ui (snd (events_effect (mkProps active (Some (e :: older)) ch) w)))
       = isAnalyzing (ui w)
    /\ currentImage (ui (snd (events_effect (mkProps active (Some (e :: older)) ch) w)))
       = currentImage (ui w)
    /\ currentImageFilename
         (ui (snd (events_effect (mkProps active (Some (e :: older)) ch) w)))
       = currentImageFilename (ui w)
    /\ events_effect (mkProps active (Some []) ch) w = (Normal tt, w)
    /\ events_effect (mkProps active None ch) w = (Normal tt, w).
Proof.
  intros active active' ch ch' e older older' w.
  split; [reflexivity|].
  split; [|split; [|split; [|split; [|split; reflexivity]]]];
    unfold events_effect; cbn [events];
    unfold bind, console_log, emit, lift, setShowCamera, setAnalysisError,
      modify_ui, ret;
    cbn [fst snd ui trace clock reads];
    destruct (is_function_call_event e) as [[|]|err|];
    cbn [fst snd ui trace clock reads];
    try destruct (functionName e) as [name|err|];
    cbn [fst snd ui trace clock reads];
    try destruct (strict_eq name "take_photo");
    cbn [fst snd ui trace clock reads isAnalyzing currentImage
         currentImageFilename];
    try reflexivity;
    rewrite <- ?app_assoc; eexists; split; reflexivity.
Qed.

(** X6. The effect does not look at the session flag, and the modal is
    rendered outside the part of the page that does: a take_photo
    invocation arriving while the session is not active puts the camera
    modal on the page, next to the invitation to start the session. *)
Theorem take_photo_without_session :
  forall (ch : option RTCDataChannel) (e : RealtimeEvent)
         (older : list RealtimeEvent) (st : UI),
    Spec.take_photo_invoked e = true ->
    render (mkProps false (Some (e :: older)) ch)
           (ui (snd (events_effect (mkProps false (Some (e :: older)) ch)
                       (start st))))
    = mkView false true None false None true.
Proof.
  intros ch e older st Hinvoked.
  rewrite events_effect_run, Hinvoked. reflexivity.
Qed.

Lemma take_photo_without_session_witness :
  camera_modal
    (render (mkProps false (Some [done_take_photo]) None)
            (ui (snd (events_effect (mkProps false (Some [done_take_photo]) None)
                        (start initial_ui)))))
  = true.
Proof.
  rewrite (take_photo_without_session None done_take_photo [] initial_ui).
  - reflexivity.
  - reflexivity.
Defined.

(** ** What the user sees *)

Lemma truthy_nonempty (s : string) : s <> "" -> truthy (Some s) = true.
Proof.
  intros Hs. simpl. destruct (String.eqb_spec s ""); [contradiction | reflexivity].
Qed.



(** X9. What the error box says.  When the request fails before the timer
    with an error other than the timeout, the box shows that error's
    message, and no box at all when the message is empty; when the timer
    wins, it shows the timeout text. *)
Theorem error_box_after_failure :
  forall (props : Props) (imageData : string) (st : UI),
    isSessionActive props = true ->
    (forall (env : Env) (t : Z) (error : Error),
        fetch env "/analyze-image" = SettlesAt t (Throw error) ->
        (t < VISION_TIMEOUT)%Z ->
        message error <> timeout_message ->
        error_box
          (render props
             (ui (snd (handlePhotoTaken props env imageData (start st)))))
        = if message error =? "" then None else Some (message error))
    /\ (forall env : Env,
          (fetch env "/analyze-image" = Pending
           \/ exists t c, fetch env "/analyze-image" = SettlesAt t c
                          /\ (VISION_TIMEOUT < t)%Z) ->
          error_box
            (render props
               (ui (snd (handlePhotoTaken props env imageData (start st)))))
          = Some "Vision analysis timed out. Please try again.").
Proof.
  intros props imageData st Hactive. split.
  - intros env t error Hfetch Ht Hmsg.
    unfold handlePhotoTaken, bind.
    rewrite handlePhotoTaken_begin_run.
    rewrite (handlePhotoTaken_resume_run props env imageData _ _ _
               (analyzeWithTimeout_in_time env imageData t _ _ Hfetch
                  (Z.lt_le_incl _ _ Ht))).
    rewrite handlePhotoTaken_catch_other by exact Hmsg.
    unfold render. rewrite Hactive.
    cbn [snd ui error_box analysisError truthy].
    destruct (message error =? ""); reflexivity.
  - intros env Hlate.
    rewrite (handlePhotoTaken_late props env imageData _ Hlate).
    rewrite handlePhotoTaken_catch_timeout by reflexivity.
    unfold render. rewrite Hactive. reflexivity.
Qed.

Lemma error_box_after_failure_witness :
  error_box
    (render open_channel_props
       (ui (snd (handlePhotoTaken open_channel_props (rejects 40 network_down)
                   sample_image (start initial_ui)))))
  = Some "Failed to fetch".
Proof.
  destruct (error_box_after_failure open_channel_props sample_image initial_ui)
    as (Hfailed & _).
  - reflexivity.
  - rewrite (Hfailed (rejects 40 network_down) 40%Z network_down).
    + reflexivity.
    + reflexivity.
    + unfold VISION_TIMEOUT. lia.
    + discriminate.
Defined.

(** ** The session effect and [cleanupSession] on any state *)

(** [cleanupSession], by what the request does. *)
Lemma cleanupSession_run (env : Env) (imageFilename : string) (w : World) :
  trace (snd (cleanupSession env imageFilename w))
  = (trace w
       ++ Fetch "/cleanup-image" "POST" imageFilename
       :: match fetch env "/cleanup-image" with
          | SettlesAt _ (Throw e) => [ConsoleError "Cleanup failed:" e]
          | _ => []
          end)%list
  /\ (forall e, fst (cleanupSession env imageFilename w) <> Throw e)
  /\ ui (snd (cleanupSession env imageFilename w)) = ui w.
Proof.
  unfold cleanupSession.
  destruct (fetch env "/cleanup-image") as [t [r|e|]|];
    unfold await, try_catch, bind, console_error, emit, ret, advance, lift;
    cbn [ui trace clock reads fst snd]; rewrite <- ?app_assoc;
    (split; [reflexivity | split; [intros e'; discriminate | reflexivity]]).
Qed.

(** The session effect of an ended session as one equation. *)
Lemma session_effect_inactive_run (props : Props) (env : Env) (w : World) :
  isSessionActive props = false ->
  session_effect props env w
  = (Normal tt,
     let reset := mkWorld (mkUI false (currentImageFilename (ui w)) false
                                None None)
                          (trace w) (clock w) (reads w) in
     match currentImageFilename (ui w) with
     | Some filename =>
         if filename =? "" then reset
         else
           let cleaned := snd (cleanupSession env filename reset) in
           mkWorld (mkUI (showCamera (ui cleaned)) None (isAnalyzing (ui cleaned))
                         (currentImage (ui cleaned)) (analysisError (ui cleaned)))
                   (trace cleaned) (clock cleaned) (reads cleaned)
     | None => reset
     end).
Proof.
  intros Hinactive.
  unfold session_effect, bind at 1, get_ui. rewrite Hinactive. cbn [negb].
  destruct (currentImageFilename (ui w)) as [filename|] eqn:Hname.
  - cbn [truthy]. destruct (filename =? ""); cbn [negb].
    + cbn. rewrite Hname. reflexivity.
    + unfold bind, background, setShowCamera, setIsAnalyzing, setCurrentImage,
        setAnalysisError, setCurrentImageFilename, modify_ui.
      cbn [ui trace clock reads fst snd showCamera isAnalyzing currentImage
           analysisError currentImageFilename].
      rewrite Hname. reflexivity.
  - cbn. rewrite Hname. reflexivity.
Qed.

(** What the session effect does to a state, and the requests it makes. *)
Lemma session_effect_inactive (props : Props) (env : Env) (w : World) :
  isSessionActive props = false ->
  fst (session_effect props env w) = Normal tt
  /\ showCamera (ui (snd (session_effect props env w))) = false
  /\ isAnalyzing (ui (snd (session_effect props env w))) = false
  /\ currentImage (ui (snd (session_effect props env w))) = None
  /\ analysisError (ui (snd (session_effect props env w))) = None
  /\ currentImageFilename (ui (snd (session_effect props env w)))
     = (if truthy (currentImageFilename (ui w))
        then None else currentImageFilename (ui w))
  /\ cleanup_requests (trace (snd (session_effect props env w)))
     = (cleanup_requests (trace w)
          ++ match currentImageFilename (ui w) with
             | Some filename => if filename =? "" then [] else [filename]
             | None => []
             end)%list.
Proof.
  intros Hinactive.
  rewrite (session_effect_inactive_run props env w Hinactive).
  cbv zeta. cbn [fst snd].
  destruct (currentImageFilename (ui w)) as [filename|]; cbn [truthy].
  - destruct (filename =? ""); cbn [negb].
    + cbn. rewrite app_nil_r. repeat split.
    + match goal with
      | |- context [cleanupSession env filename ?w0] =>
          destruct (cleanupSession_run env filename w0) as (Htrace & _ & Hui)
      end.
      cbn [ui trace showCamera isAnalyzing currentImage analysisError
           currentImageFilename].
      rewrite Hui, Htrace. cbn [ui trace showCamera isAnalyzing currentImage
                                analysisError].
      rewrite cleanup_requests_app.
      split; [reflexivity|]. split; [reflexivity|]. split; [reflexivity|].
      split; [reflexivity|]. split; [reflexivity|]. split; [reflexivity|].
      f_equal. cbn. destruct (fetch env "/cleanup-image") as [t [r|e|]|];
        reflexivity.
  - cbn. rewrite app_nil_r. repeat split.
Qed.

(** X10. When the session is not active the effect clears the camera flag,
    the analyzing flag, the image and the error from any state.  It asks
    for the cleanup of the file exactly when a non-empty filename is held,
    and once only: it forgets the filename, so a second run of the effect
    makes no further request.  While the session is active the effect does
    nothing at all. *)
Theorem session_effect_cleans_up_once :
  forall (props : Props) (env env' : Env) (st : UI),
    isSessionActive props = false ->
    let once := snd (session_effect props env (start st)) in
    let twice := snd (session_effect props env' once) in
    (showCamera (ui once) = false
     /\ isAnalyzing (ui once) = false
     /\ currentImage (ui once) = None
     /\ analysisError (ui once) = None)
    /\ cleanup_requests (trace once)
       = match currentImageFilename st with
         | Some filename => if filename =? "" then [] else [filename]
         | None => []
         end
    /\ cleanup_requests (trace twice) = cleanup_requests (trace once)
    /\ forall (active_props : Props) (w : World),
         isSessionActive active_props = true ->
         session_effect active_props env w = (Normal tt, w).
Proof.
  intros props env env' st Hinactive once twice.
  destruct (session_effect_inactive props env (start st) Hinactive)
    as (_ & Hshown & Hflag & Himage & Herr & Hname & Hrequests).
  destruct (session_effect_inactive props env' once Hinactive)
    as (_ & _ & _ & _ & _ & _ & Hagain).
  fold once in Hshown, Hflag, Himage, Herr, Hname, Hrequests.
  fold twice in Hagain.
  split; [repeat split; assumption|].
  split; [exact Hrequests|]. split.
  - rewrite Hagain, Hname. cbn [start ui].
    destruct (currentImageFilename st) as [filename|]; cbn [truthy].
    + destruct (filename =? "") eqn:Hempty; cbn [negb].
      * rewrite Hempty. apply app_nil_r.
      * apply app_nil_r.
    + apply app_nil_r.
  - intros active_props w Hactive.
    unfold session_effect, bind, get_ui. rewrite Hactive. reflexivity.
Qed.

Lemma session_effect_cleans_up_once_witness :
  cleanup_requests
    (trace (snd (session_effect (mkProps false None None)
                   (answers 300 (mkHttp true 200 (BodyJson JsonNull)))
                   (start (mkUI true (Some "photo-1.jpg") true
                                (Some sample_image) None)))))
  = ["photo-1.jpg"].
Proof.
  destruct (session_effect_cleans_up_once (mkProps false None None)
              (answers 300 (mkHttp true 200 (BodyJson JsonNull)))
              (answers 300 (mkHttp true 200 (BodyJson JsonNull)))
              (mkUI true (Some "photo-1.jpg") true (Some sample_image) None))
    as (_ & Hrequests & _).
  - reflexivity.
  - exact Hrequests.
Defined.

(** X11. A failed cleanup is only logged.  [cleanupSession] makes exactly
    one POST to /cleanup-image with the filename and never throws: when the
    request is rejected the error goes to [console.error] under "Cleanup
    failed:", and a response, whatever its status, is not looked at.  The
    UI state is not touched. *)
Theorem cleanupSession_only_logs :
  forall (env : Env) (imageFilename : string) (w : World),
    trace (snd (cleanupSession env imageFilename w))
    = (trace w
         ++ Fetch "/cleanup-image" "POST" imageFilename
         :: match fetch env "/cleanup-image" with
            | SettlesAt _ (Throw e) => [ConsoleError "Cleanup failed:" e]
            | _ => []
            end)%list
    /\ (forall e, fst (cleanupSession env imageFilename w) <> Throw e)
    /\ ui (snd (cleanupSession env imageFilename w)) = ui w.
Proof.
  intros env imageFilename w. exact (cleanupSession_run env imageFilename w).
Qed.

(** ** CameraModal: denial and capture *)

(** X12. When the camera is refused, the modal shows the fixed error text in
    place of the video, the capture button is disabled and [takePhoto]
    calls [onPhotoTaken] not at all; no track is capturing because of the
    modal, before or after it is closed. *)
Theorem camera_denied :
  forall (err : Error) (live : CameraModal.Device)
         (toDataURL : nat -> nat -> string) (v : CameraModalView.Video)
         (how : CameraModal.Exit),
    let settled := CameraModal.setupCamera_settled (CameraModal.Denied err)
                     CameraModal.mount live in
    CameraModalView.render (CameraModal.state (fst settled))
    = CameraModalView.mkView
        (Some "Could not access camera. Please ensure you have granted camera permissions.")
        false true
    /\ CameraModalView.takePhoto toDataURL v (CameraModal.state (fst settled))
       = []
    /\ CameraModal.srcObject (fst settled) = None
    /\ snd settled = live
    /\ CameraModal.leave how (fst settled) (snd settled) = live.
Proof.
  intros err live toDataURL v how. cbn.
  repeat split. destruct how; reflexivity.
Qed.

(** X13. The capture button works from the first render on, before as
    well as after the camera is granted: one press calls [onPhotoTaken]
    exactly once, with the encoding of a canvas of the video's own size.
    Once granted, the stream is the video's source. *)
Theorem capture_calls_onPhotoTaken_once :
  forall (mediaStream : CameraModal.MediaStream) (live : CameraModal.Device)
         (toDataURL : nat -> nat -> string) (v : CameraModalView.Video),
    let granted := fst (CameraModal.setupCamera_settled
                          (CameraModal.Granted mediaStream)
                          CameraModal.mount live) in
    CameraModalView.capture_disabled
      (CameraModalView.render (CameraModal.state CameraModal.mount)) = false
    /\ CameraModalView.takePhoto toDataURL v (CameraModal.state CameraModal.mount)
       = [toDataURL (CameraModalView.videoWidth v) (CameraModalView.videoHeight v)]
    /\ CameraModalView.capture_disabled
         (CameraModalView.render (CameraModal.state granted)) = false
    /\ CameraModalView.takePhoto toDataURL v (CameraModal.state granted)
       = [toDataURL (CameraModalView.videoWidth v) (CameraModalView.videoHeight v)]
    /\ CameraModal.srcObject granted = Some mediaStream.
Proof. intros mediaStream live toDataURL v. cbn. repeat split. Qed.

(** ** The server's handlers *)

(** X14. GET /token answers 200 with the provider's JSON as it came only
    when the provider answered with a success status and a body that parses;
    every other case (no answer, a non-success status, an unparsable body)
    gives the same reply, 500 with the fixed error text, and the cause goes
    to [console.error] only.  The provider is asked exactly once. *)
Theorem token_handler_replies :
  forall api : Server.SessionsApi,
    Server.upstream (Server.token_handler api) = [Server.sessions_url]
    /\ match api with
       | Server.Answered true _ (Server.Parsed data) =>
           Server.reply (Server.token_handler api)
           = Server.mkReply 200 (Server.TokenData data)
           /\ Server.console (Server.token_handler api) = []
       | Server.Answered false statusText _ =>
           Server.reply (Server.token_handler api)
           = Server.mkReply 500
               (Server.TokenError "Failed to generate session token")
           /\ Server.console (Server.token_handler api)
              = [ConsoleError "Token generation failed:"
                   (new_Error ("Failed to get token: " ++ statusText))]
       | Server.Answered true _ (Server.Unparsable e) | Server.Unreachable e =>
           Server.reply (Server.token_handler api)
           = Server.mkReply 500
               (Server.TokenError "Failed to generate session token")
           /\ Server.console (Server.token_handler api)
              = [ConsoleError "Token generation failed:" e]
       end.
Proof.
  intros [e | [|] statusText [data|e]]; split; try split; reflexivity.
Qed.

(** X15. POST /analyze-image.  Without [imageData], or with an empty one,
    the reply is 400 "Image data is required" and the provider is not
    called; without any body the destructuring fails and the reply is 500.
    With image data the provider is called once, with that very string:
    its first choice is sent back with status 200, and any failure gives
    500 "Vision analysis failed" with the error's message as details. *)
Theorem analyze_handler_replies :
  forall (create : string -> Server.Completions),
    (forall imageData,
        imageData = None \/ imageData = Some "" ->
        Server.analyze_handler create (Server.BodyFields imageData)
        = Server.mkHandled [] []
            (Server.mkReply 400
               (Server.AnalyzeError "Image data is required" None)))
    /\ (Server.reply (Server.analyze_handler create Server.BodyAbsent)
        = Server.mkReply 500
            (Server.AnalyzeError "Vision analysis failed"
               (Some (message Server.destructure_error)))
        /\ Server.upstream (Server.analyze_handler create Server.BodyAbsent) = [])
    /\ (forall url,
          url <> "" ->
          Server.upstream
            (Server.analyze_handler create (Server.BodyFields (Some url)))
          = [url]
          /\ Server.reply
               (Server.analyze_handler create (Server.BodyFields (Some url)))
             = match create url with
               | Server.Created (Some choices) =>
                   Server.mkReply 200 (Server.FirstChoice (hd_error choices))
               | Server.Created None =>
                   Server.mkReply 500
                     (Server.AnalyzeError "Vision analysis failed"
                        (Some (message Server.choices_error)))
               | Server.CreateFailed e =>
                   Server.mkReply 500
                     (Server.AnalyzeError "Vision analysis failed"
                        (Some (message e)))
               end).
Proof.
  intros create. split; [|split].
  - intros imageData [-> | ->]; reflexivity.
  - split; reflexivity.
  - intros url Hurl. unfold Server.analyze_handler.
    rewrite (truthy_nonempty url Hurl). cbn [negb].
    destruct (create url) as [e|[choices|]]; split; reflexivity.
Qed.

Lemma analyze_handler_replies_witness :
  Server.reply
    (Server.analyze_handler (describes "A cup on a table.")
       (Server.BodyFields (Some sample_image)))
  = Server.mkReply 200
      (Server.FirstChoice
         (Some (Server.mkChoice (MessageObject (Some "A cup on a table."))))).
Proof.
  destruct (analyze_handler_replies (describes "A cup on a table."))
    as (_ & _ & Hcalled).
  destruct (Hcalled sample_image) as (_ & Hreply).
  - discriminate.
  - exact Hreply.
Defined.


(** ** Bounds on one capture *)

Lemma handlePhotoTaken_catch_bounds (props : Props) (error : Error) (w : World) :
  clock (snd (handlePhotoTaken_catch props error w)) = clock w
  /\ reads (snd (handlePhotoTaken_catch props error w)) <= reads w + 1
  /\ exists d,
       sent (trace (snd (handlePhotoTaken_catch props error w)))
       = (sent (trace w) ++ d)%list
       /\ length d <= 2.
Proof.
  destruct (String.eqb_spec (message error) timeout_message) as [Heq|Hneq].
  - rewrite handlePhotoTaken_catch_timeout by exact Heq.
    cbn [snd clock reads trace].
    split; [reflexivity|]. split; [destruct (dataChannel props); lia|].
    rewrite sent_app.
    destruct (dataChannel props) as [channel|];
      [destruct (is_open (readyState channel (reads w)))|];
      eexists; (split; [reflexivity | cbn; lia]).
  - rewrite handlePhotoTaken_catch_other by exact Hneq.
    cbn [snd clock reads trace].
    split; [reflexivity|]. split; [lia|].
    rewrite sent_app. eexists; split; [reflexivity | cbn; lia].
Qed.

Lemma deliver_bounds (props : Props) (text : option string) (w : World) :
  (clock (snd (deliver props text w)) <= clock w + 31000)%Z
  /\ reads (snd (deliver props text w)) <= reads w + 5
  /\ exists d,
       sent (trace (snd (deliver props text w))) = (sent (trace w) ++ d)%list
       /\ length d <= 3.
Proof.
  unfold deliver, try_catch, sendToModel.
  destruct (sendToModel_loop_outcomes props text maxAttempts 0 w)
    as (delta & Htrace & _ & Hreads & Hclock & Hout & _).
  change (backoff_sum 0 maxAttempts) with 31000%Z in Hclock.
  unfold maxAttempts in *.
  destruct (sendToModel_loop props text 5 0 w) as [c w'].
  cbn [fst snd] in *.
  assert (Hlen : length (sent delta) <= 3).
  { destruct Hout as [[_ [-> | ->]] | [_ ->]]; cbn; lia. }
  destruct c as [[]|e|]; unfold console_error, emit;
    cbn [fst snd clock reads trace];
    (split; [lia|]); (split; [lia|]);
    exists (sent delta); rewrite Htrace, ?sent_app; cbn [sent flat_map app];
    rewrite ?app_nil_r; (split; [reflexivity | exact Hlen]).
Qed.

(** X18. The timer of [analyzeWithTimeout] holds against any network: the
    call makes one request and sets one timer of 10000 ms, and it is over
    after at most 10000 ms even when the request is never answered.  It
    gives back exactly what the request settled with whenever that
    happened before the timer, and the timeout error whenever it happened
    after it or not at all. *)
Theorem analyzeWithTimeout_settles :
  forall (env : Env) (imageData : string) (w : World),
    trace (snd (analyzeWithTimeout env imageData w))
    = (trace w ++ [SetTimeout 10000; Fetch "/analyze-image" "POST" imageData])%list
    /\ (clock (snd (analyzeWithTimeout env imageData w)) <= clock w + 10000)%Z
    /\ ui (snd (analyzeWithTimeout env imageData w)) = ui w
    /\ match fetch env "/analyze-image" with
       | SettlesAt t c =>
           ((t < VISION_TIMEOUT)%Z ->
            analyzeWithTimeout env imageData w = (c, after_race imageData t w))
           /\ ((VISION_TIMEOUT < t)%Z ->
               fst (analyzeWithTimeout env imageData w)
               = Throw (new_Error "Vision analysis timeout"))
       | Pending =>
           analyzeWithTimeout env imageData w
           = (Throw (new_Error "Vision analysis timeout"),
              after_race imageData 10000 w)
       end.
Proof.
  intros env imageData w.
  destruct (fetch env "/analyze-image") as [t c|] eqn:Hfetch.
  - destruct (Z.ltb_spec VISION_TIMEOUT t) as [Hafter|Hin].
    + rewrite (analyzeWithTimeout_late env imageData w
                 (or_intror (ex_intro _ t (ex_intro _ c (conj Hfetch Hafter))))).
      cbn [fst snd after_race ui trace clock]. unfold VISION_TIMEOUT in *.
      repeat split; lia.
    + rewrite (analyzeWithTimeout_in_time env imageData t c w Hfetch Hin).
      cbn [fst snd after_race ui trace clock]. unfold VISION_TIMEOUT in *.
      repeat split; lia.
  - rewrite (analyzeWithTimeout_late env imageData w (or_introl Hfetch)).
    cbn [fst snd after_race ui trace clock]. unfold VISION_TIMEOUT.
    repeat split; lia.
Qed.

(** * The classifier, the apology and the resumed handler *)

(** ** The effect against the classifier read off the event *)

Lemma existsb_first_function_call (os : list OutputItem) :
  existsb is_function_call os
  = match Classifier.first_function_call os with
    | Some _ => true
    | None => false
    end.
Proof.
  induction os as [|o os IH]; [reflexivity|].
  cbn [existsb Classifier.first_function_call].
  change (Classifier.is_text "function_call" (item_type o))
    with (is_function_call o).
  destruct (is_function_call o); [reflexivity | exact IH].
Qed.

Lemma find_first_function_call (os : list OutputItem) :
  find is_function_call os = Classifier.first_function_call os.
Proof.
  induction os as [|o os IH]; [reflexivity|].
  cbn [find Classifier.first_function_call].
  change (Classifier.is_text "function_call" (item_type o))
    with (is_function_call o).
  destruct (is_function_call o); [reflexivity | exact IH].
Qed.

Lemma truthy_non_empty (v : option string) : truthy v = Classifier.non_empty v.
Proof. destruct v as [[|c s]|]; reflexivity. Qed.

Lemma classifier_recognized (e : RealtimeEvent) :
  Spec.recognized e = Classifier.recognized e.
Proof.
  destruct e as [ty fn [[[[o|os]|]]|]];
    unfold Spec.recognized, Spec.direct_function_call, Spec.added_output_item,
      Spec.completed_with_function_call, Classifier.recognized,
      Classifier.direct, Classifier.added_item, Classifier.done,
      Classifier.single_output, Classifier.output_collection, response_output;
    cbn [type response output]; try reflexivity.
  rewrite existsb_first_function_call. reflexivity.
Qed.

Lemma classifier_invoked (e : RealtimeEvent) :
  Spec.take_photo_invoked e = Classifier.invoked e.
Proof.
  unfold Spec.take_photo_invoked, Classifier.invoked.
  rewrite classifier_recognized. f_equal.
  unfold Spec.resolved_name, Classifier.resolved_name.
  cbn [Spec.first_present].
  assert (Hd : Spec.direct_name e = Classifier.direct_name e)
    by (destruct e as [ty [[d]|] rs]; reflexivity).
  assert (Hs : Spec.single_output_name e = Classifier.single_name e)
    by (destruct e as [ty fn [[[[o|os]|]]|]]; reflexivity).
  assert (Hc : Spec.first_function_call_name e = Classifier.collection_name e).
  { destruct e as [ty fn [[[[o|os]|]]|]]; try reflexivity.
    all: unfold Spec.first_function_call_name, Classifier.collection_name,
      Classifier.output_collection, response_output;
      cbn [response output]; rewrite find_first_function_call; reflexivity. }
  rewrite Hd, Hs, Hc, !truthy_non_empty.
  destruct (Classifier.non_empty (Classifier.direct_name e)); [reflexivity|].
  destruct (Classifier.non_empty (Classifier.single_name e)); [reflexivity|].
  destruct (Classifier.collection_name e) as [[|c n]|]; reflexivity.
Qed.

Lemma eqb_false (a b : string) : a <> b -> (a =? b) = false.
Proof. intros H. apply String.eqb_neq. exact H. Qed.

(** How the two sub-expressions of the effect complete. *)
Lemma events_effect_completion (e : RealtimeEvent) :
  match is_function_call_event e with
  | Normal true =>
      match functionName e with
      | Normal _ => Classifier.array_method_on_object e = false
      | Throw err =>
          Classifier.array_method_on_object e = true
          /\ err = find_not_a_function
      | Hang => False
      end
  | Normal false => Classifier.array_method_on_object e = false
  | Throw err =>
      Classifier.array_method_on_object e = true /\ err = some_not_a_function
  | Hang => False
  end.
Proof.
  destruct e as [ty fn [[[[[ity inm]|os]|]]|]].
  - (* one object *)
    unfold is_function_call_event, functionName, Classifier.array_method_on_object,
      Classifier.recognized, Classifier.direct, Classifier.added_item,
      Classifier.done, Classifier.single_output, Classifier.output_collection,
      Classifier.direct_name, Classifier.single_name, response_output,
      output_type, output_name.
    cbn [type function response output item_type item_name].
    rewrite !truthy_non_empty.
    destruct ty as [t|]; cbn [strict_eq Classifier.is_text andb orb].
    + destruct (String.eqb_spec t "function_call") as [->|Hcall].
      * cbn. destruct fn as [[d]|]; cbn;
          [destruct (Classifier.non_empty d); cbn; [reflexivity|]|];
          destruct (Classifier.non_empty inm); cbn; auto.
      * destruct (String.eqb_spec t "response.output_item.added") as [->|Hadded].
        -- cbn. destruct ity as [it|]; cbn;
             [destruct (it =? "function_call"); cbn|]; try reflexivity.
           destruct fn as [[d]|]; cbn;
             [destruct (Classifier.non_empty d); cbn; [reflexivity|]|];
             destruct (Classifier.non_empty inm); cbn; auto.
        -- destruct (String.eqb_spec t "response.done") as [->|Hdone].
           ++ cbn. auto.
           ++ cbn. reflexivity.
    + reflexivity.
  - (* an array *)
    unfold is_function_call_event, functionName, response_output.
    cbn [type function response output output_type output_name strict_eq
         andb truthy].
    rewrite Bool.andb_false_r.
    destruct (strict_eq ty "function_call");
      [|destruct (strict_eq ty "response.done");
        [destruct (existsb is_function_call os)|]];
      try reflexivity;
      destruct (truthy match fn with
                       | Some f => function_name f
                       | None => None
                       end); reflexivity.
  - (* no output *)
    unfold is_function_call_event, functionName, response_output.
    cbn [type function response output strict_eq andb truthy].
    rewrite Bool.andb_false_r.
    destruct (strict_eq ty "function_call");
      [|destruct (strict_eq ty "response.done")];
      try reflexivity;
      destruct (truthy match fn with
                       | Some f => function_name f
                       | None => None
                       end); reflexivity.
  - (* no response *)
    unfold is_function_call_event, functionName, response_output.
    cbn [type function response strict_eq andb truthy].
    rewrite Bool.andb_false_r.
    destruct (strict_eq ty "function_call");
      [|destruct (strict_eq ty "response.done")];
      try reflexivity;
      destruct (truthy match fn with
                       | Some f => function_name f
                       | None => None
                       end); reflexivity.
Qed.

(** On an event that takes an array method to a single object the effect
    raises before any setter runs and before the detection is logged. *)
Lemma events_effect_raises (active : bool) (ch : option RTCDataChannel)
    (e : RealtimeEvent) (older : list RealtimeEvent) (st : UI) :
  Classifier.array_method_on_object e = true ->
  let run := events_effect (mkProps active (Some (e :: older)) ch) (start st) in
  (fst run = Throw some_not_a_function \/ fst run = Throw find_not_a_function)
  /\ ui (snd run) = st
  /\ logged detected_log (trace (snd run)) = false
  /\ Classifier.invoked e = false.
Proof.
  intros Hraise run. subst run.
  rewrite events_effect_run, classifier_invoked.
  pose proof (events_effect_completion e) as Hc.
  pose proof (classifier_invoked e) as Hi.
  pose proof (events_effect_run active ch e older st) as Hrun.
  destruct (Classifier.invoked e) eqn:Hinv.
  - (* an invocation is never on a raising event *)
    exfalso.
    unfold Classifier.invoked in Hinv.
    apply Bool.andb_true_iff in Hinv as [Hrec Hname].
    unfold Classifier.array_method_on_object in Hraise.
    destruct (Classifier.single_output e) as [o|] eqn:Hsingle;
      [|discriminate].
    rewrite Hrec in Hraise. cbn [andb] in Hraise.
    apply Bool.orb_true_iff in Hraise as [Hdone|Hempty].
    + unfold Classifier.recognized, Classifier.direct, Classifier.added_item,
        Classifier.done in Hrec.
      rewrite Hdone in Hrec.
      assert (Hcoll : Classifier.output_collection e = None).
      { unfold Classifier.single_output in Hsingle.
        unfold Classifier.output_collection.
        destruct (response e) as [[[[o'|os]|]]|]; try discriminate; reflexivity. }
      rewrite Hcoll, Bool.andb_false_r, Bool.orb_false_r in Hrec.
      destruct (type e) as [t|]; [|discriminate].
      cbn [Classifier.is_text] in Hdone, Hrec.
      apply String.eqb_eq in Hdone. subst t. discriminate.
    + unfold Classifier.resolved_name in Hname.
      apply Bool.andb_true_iff in Hempty as [Hd Hs].
      apply Bool.negb_true_iff in Hd. apply Bool.negb_true_iff in Hs.
      rewrite Hd, Hs in Hname.
      assert (Hcoll : Classifier.collection_name e = None).
      { unfold Classifier.single_output in Hsingle.
        unfold Classifier.collection_name, Classifier.output_collection.
        destruct (response e) as [[[[o'|os]|]]|]; try discriminate; reflexivity. }
      rewrite Hcoll in Hname. discriminate.
  - destruct (is_function_call_event e) as [[|]|err|]; try contradiction.
    + destruct (functionName e) as [v|err|]; try contradiction.
      * congruence.
      * destruct Hc as [_ ->]. cbn. auto.
    + congruence.
    + destruct Hc as [_ ->]. cbn. auto.
Qed.




(** ** The apology and the delivery adapter *)

(** C9 as worded fails: the apology does not go through [sendToModel].  On a
    channel that is open from its second look on, the handler sends nothing
    after its single look while [sendToModel] delivers on the second; and
    with the session inactive the handler still sends the apology while
    [sendToModel] sends nothing. *)
Lemma apology_is_not_retried :
  (let props := mkProps true None (Some (opens_at 1)) in
   let run := handlePhotoTaken props late_answer sample_image (start initial_ui) in
   let adapter := sendToModel props (Some timed_out_text) (start initial_ui) in
   sent (trace (snd run)) = []
   /\ reads (snd run) = 1%nat
   /\ sent (trace (snd adapter)) = triple (Some timed_out_text)
   /\ reads (snd adapter) = 2%nat)
  /\ (let props := mkProps false None (Some (opens_at 0)) in
      let run := handlePhotoTaken props late_answer sample_image (start initial_ui) in
      let adapter := sendToModel props (Some timed_out_text) (start initial_ui) in
      sent (trace (snd run)) = apology
      /\ sent (trace (snd adapter)) = []
      /\ reads (snd adapter) = 0%nat).
Proof.
  cbv zeta.
  split; [split; [|split; [|split]] | split; [|split]]; reflexivity.
Qed.


(** ** The handler after its first [await] *)

(** The ending of the handler once the body is read: the flag is cleared
    and the delivery is started (lines 110-176). *)
Lemma deliver_after_parse (props : Props) (text : option string) (w : World) :
  ui (snd (deliver props text (after_parse w)))
  = mkUI (showCamera (ui w)) (currentImageFilename (ui w)) false
         (currentImage (ui w)) (analysisError (ui w)).
Proof.
  destruct (deliver_outcomes props text (after_parse w)) as (_ & -> & _).
  reflexivity.
Qed.

(** From whatever state the handler is resumed in, a request that settles
    and a body that arrives end it with the flag cleared and the other
    fields as they were found. *)
Lemma handlePhotoTaken_resume_settled (props : Props) (env : Env)
    (imageData : string) (w : World) :
  (forall t, fetch env "/analyze-image" <> SettlesAt t Hang) ->
  (forall t r, fetch env "/analyze-image" = SettlesAt t (Normal r) ->
               (t <= VISION_TIMEOUT)%Z -> body r <> BodyStalled) ->
  fst (handlePhotoTaken_resume props env imageData w) = Normal tt
  /\ exists err,
       ui (snd (handlePhotoTaken_resume props env imageData w))
       = mkUI (showCamera (ui w)) (currentImageFilename (ui w)) false
              (currentImage (ui w)) err.
Proof.
  intros Hsettles Hbody.
  assert (Hcatch : forall e w1,
             ui w1 = ui w ->
             fst (handlePhotoTaken_catch props e w1) = Normal tt
             /\ exists err,
                  ui (snd (handlePhotoTaken_catch props e w1))
                  = mkUI (showCamera (ui w)) (currentImageFilename (ui w)) false
                         (currentImage (ui w)) err).
  { intros e w1 Hui.
    destruct (handlePhotoTaken_catch_settles props e w1) as [-> ->].
    rewrite Hui. split; [reflexivity | eexists; reflexivity]. }
  assert (Hcatch' : forall e w1,
             ui w1 = ui w ->
             fst (handlePhotoTaken_catch props e (after_parse w1)) = Normal tt
             /\ exists err,
                  ui (snd (handlePhotoTaken_catch props e (after_parse w1)))
                  = mkUI (showCamera (ui w)) (currentImageFilename (ui w)) false
                         (currentImage (ui w)) err).
  { intros e w1 Hui.
    destruct (handlePhotoTaken_catch_settles props e (after_parse w1))
      as [-> ->].
    cbn [after_parse ui showCamera currentImageFilename currentImage].
    rewrite Hui. split; [reflexivity | eexists; reflexivity]. }
  assert (Hdeliver : forall text w1,
             ui w1 = ui w ->
             exists err,
               ui (snd (deliver props text (after_parse w1)))
               = mkUI (showCamera (ui w)) (currentImageFilename (ui w)) false
                      (currentImage (ui w)) err).
  { intros text w1 Hui. rewrite deliver_after_parse, Hui.
    eexists; reflexivity. }
  destruct (fetch env "/analyze-image") as [t c|] eqn:Hfetch.
  - destruct (Z.ltb_spec VISION_TIMEOUT t) as [Hlate|Hin].
    + rewrite (handlePhotoTaken_resume_run props env imageData _ _ _
                 (analyzeWithTimeout_late env imageData w
                    (or_intror (ex_intro _ t (ex_intro _ c (conj Hfetch Hlate)))))).
      apply Hcatch. reflexivity.
    + rewrite (handlePhotoTaken_resume_run props env imageData _ _ _
                 (analyzeWithTimeout_in_time env imageData t c w Hfetch Hin)).
      destruct c as [r|e|].
      * specialize (Hbody t r eq_refl Hin).
        destruct (body r) as [msg|j|ms [msg|j]|].
        -- apply Hcatch. reflexivity.
        -- destruct j as [|[| |text]]; cbn [message_content fst snd];
             try (apply Hcatch'; reflexivity).
           split; [reflexivity | apply Hdeliver; reflexivity].
        -- apply Hcatch. reflexivity.
        -- destruct j as [|[| |text]]; cbn [message_content fst snd];
             try (apply Hcatch'; reflexivity).
           split; [reflexivity | apply Hdeliver; reflexivity].
        -- contradiction Hbody; reflexivity.
      * apply Hcatch. reflexivity.
      * exfalso. apply (Hsettles t). reflexivity.
  - rewrite (handlePhotoTaken_resume_run props env imageData _ _ _
               (analyzeWithTimeout_late env imageData w (or_introl Hfetch))).
    apply Hcatch. reflexivity.
Qed.

(** A body that never completes leaves the handler suspended at its second
    [await], outside the race: nothing after it runs. *)
Lemma handlePhotoTaken_resume_stalled (props : Props) (env : Env)
    (imageData : string) (w : World) (t : Z) (r : Response) :
  fetch env "/analyze-image" = SettlesAt t (Normal r) ->
  (t < VISION_TIMEOUT)%Z ->
  body r = BodyStalled ->
  handlePhotoTaken_resume props env imageData w
  = (Hang, after_race imageData t w).
Proof.
  intros Hfetch Ht Hbody.
  rewrite (handlePhotoTaken_resume_run props env imageData _ _ _
             (analyzeWithTimeout_in_time env imageData t _ w Hfetch
                (Z.lt_le_incl _ _ Ht))).
  rewrite Hbody. reflexivity.
Qed.

(** X4. The part of [handlePhotoTaken] after its first [await], resumed in
    whatever state the component is in by then.  When the request settles
    or stays unanswered and the body of an answer in time arrives, it
    returns normally with the analyzing flag cleared, and it leaves
    [showCamera], [currentImage] and [currentImageFilename] as it found
    them.  When an answer arrives before the timer and its body never
    completes, the handler stays suspended at [response.json()], which is
    outside the race: the state is left as found, the flag still set. *)
Theorem handlePhotoTaken_resume_settles :
  forall (props : Props) (env : Env) (imageData : string) (w : World),
    (forall t, fetch env "/analyze-image" <> SettlesAt t Hang) ->
    let run := handlePhotoTaken_resume props env imageData w in
    ((forall t r, fetch env "/analyze-image" = SettlesAt t (Normal r) ->
                  (t <= VISION_TIMEOUT)%Z -> body r <> BodyStalled) ->
     fst run = Normal tt
     /\ isAnalyzing (ui (snd run)) = false
     /\ showCamera (ui (snd run)) = showCamera (ui w)
     /\ currentImage (ui (snd run)) = currentImage (ui w)
     /\ currentImageFilename (ui (snd run)) = currentImageFilename (ui w))
    /\ (forall t r, fetch env "/analyze-image" = SettlesAt t (Normal r) ->
                    (t < VISION_TIMEOUT)%Z -> body r = BodyStalled ->
         fst run = Hang
         /\ ui (snd run) = ui w
         /\ sent (trace (snd run)) = sent (trace w)).
Proof.
  intros props env imageData w Hsettles run. unfold run. split.
  - intros Hbody.
    destruct (handlePhotoTaken_resume_settled props env imageData w
                Hsettles Hbody) as (Hret & err & Hui).
    rewrite Hret, Hui. repeat split.
  - intros t r Hfetch Ht Hbody.
    rewrite (handlePhotoTaken_resume_stalled props env imageData w t r
               Hfetch Ht Hbody).
    cbn [fst snd after_race ui trace]. split; [reflexivity|].
    split; [reflexivity|].
    rewrite sent_app. cbn. apply app_nil_r.
Qed.

(** A request that is never answered, resumed after the assistant has asked
    again: the camera stays up; and a stalled body after the capture: the
    spinner stays. *)
Lemma handlePhotoTaken_resume_settles_witness :
  (let run := handlePhotoTaken_resume open_channel_props
                (mkEnv (fun _ => Pending)) sample_image asked_while_analyzing in
   fst run = Normal tt
   /\ isAnalyzing (ui (snd run)) = false
   /\ showCamera (ui (snd run)) = true)
  /\ (let run := handlePhotoTaken_resume open_channel_props stalled_body
                   sample_image captured in
      fst run = Hang /\ isAnalyzing (ui (snd run)) = true).
Proof.
  cbv zeta. split.
  - destruct (handlePhotoTaken_resume_settles open_channel_props
                (mkEnv (fun _ => Pending)) sample_image asked_while_analyzing)
      as (Hends & _).
    + intros t. discriminate.
    + destruct Hends as (Hret & Hflag & Hshown & _).
      * intros t r. discriminate.
      * split; [exact Hret|]. split; [exact Hflag|].
        rewrite Hshown. reflexivity.
  - destruct (handlePhotoTaken_resume_settles open_channel_props stalled_body
                sample_image captured)
      as (_ & Hstalls).
    + intros t. discriminate.
    + destruct (Hstalls 1200%Z (mkHttp true 200 BodyStalled)) as (Hret & Hui & _).
      * reflexivity.
      * unfold VISION_TIMEOUT. lia.
      * reflexivity.
      * split; [exact Hret|]. rewrite Hui. reflexivity.
Defined.

(** ** The page around the analysis *)

(** X7. At the moment [handlePhotoTaken] suspends at its first [await],
    right after the capture, the page of an active session shows the
    captured image under the spinner, with no error box and no camera
    modal, whatever was shown before.  (What is shown later, while the
    analysis is pending, also depends on the effects that run meanwhile.) *)
Theorem view_while_analyzing :
  forall (props : Props) (imageData : string) (st : UI),
    isSessionActive props = true ->
    imageData <> "" ->
    render props (ui (snd (handlePhotoTaken_begin imageData (start st))))
    = mkView true false (Some imageData) true None false.
Proof.
  intros props imageData st Hactive Himage.
  rewrite handlePhotoTaken_begin_run. unfold render. rewrite Hactive.
  cbn [snd ui analyzing currentImage isAnalyzing analysisError showCamera].
  rewrite (truthy_nonempty imageData Himage). reflexivity.
Qed.

Lemma view_while_analyzing_witness :
  render open_channel_props
         (ui (snd (handlePhotoTaken_begin sample_image (start initial_ui))))
  = mkView true false (Some sample_image) true None false.
Proof.
  apply (view_while_analyzing open_channel_props sample_image initial_ui).
  - reflexivity.
  - discriminate.
Defined.

(** X8. What the end of [handlePhotoTaken] changes on the page, from
    whatever state the component is in when the handler is resumed after
    its first [await]: provided the request settles or stays unanswered and
    the body of an answer in time arrives, the spinner is gone, and the
    image, the camera modal, the instructions and the placeholder are shown
    or not exactly as before. *)
Theorem view_after_analysis :
  forall (shown props : Props) (env : Env) (imageData : string) (w : World),
    (forall t, fetch env "/analyze-image" <> SettlesAt t Hang) ->
    (forall t r, fetch env "/analyze-image" = SettlesAt t (Normal r) ->
                 (t <= VISION_TIMEOUT)%Z -> body r <> BodyStalled) ->
    let before := render shown (ui w) in
    let after :=
      render shown (ui (snd (handlePhotoTaken_resume props env imageData w))) in
    overlay after = false
    /\ image after = image before
    /\ camera_modal after = camera_modal before
    /\ instructions after = instructions before
    /\ placeholder after = placeholder before.
Proof.
  intros shown props env imageData w Hsettles Hbody before after.
  destruct (handlePhotoTaken_resume_settled props env imageData w
              Hsettles Hbody) as (_ & err & Hui).
  unfold after, before, render. rewrite Hui.
  cbn [currentImage isAnalyzing showCamera analysisError].
  destruct (isSessionActive shown);
    cbn [overlay image camera_modal instructions placeholder];
    rewrite ?Bool.andb_false_r; repeat split.
Qed.

(** The assistant asked again during the analysis: when the handler ends
    on a network error, the camera modal is still up, over the image. *)
Lemma view_after_analysis_witness :
  let after :=
    render open_channel_props
      (ui (snd (handlePhotoTaken_resume open_channel_props
                  (rejects 40 network_down) sample_image
                  asked_while_analyzing))) in
  overlay after = false
  /\ image after = Some sample_image
  /\ camera_modal after = true.
Proof.
  cbv zeta.
  destruct (view_after_analysis open_channel_props open_channel_props
              (rejects 40 network_down) sample_image asked_while_analyzing)
    as (Hoverlay & Himage & Hmodal & _).
  - intros t. discriminate.
  - intros t r. discriminate.
  - split; [exact Hoverlay|].
    split; [rewrite Himage | rewrite Hmodal]; reflexivity.
Defined.

(** ** The client against the server *)






(** ** The cost of one capture *)

Lemma sent_after_race (imageData : string) (t : Z) (w : World) :
  sent (trace (after_race imageData t w)) = sent (trace w).
Proof. cbn [after_race trace]. rewrite sent_app. cbn. apply app_nil_r. Qed.

Lemma sent_after_parse (w : World) :
  sent (trace (after_parse w)) = sent (trace w).
Proof. cbn [after_parse trace]. rewrite sent_app. cbn. apply app_nil_r. Qed.

Lemma sent_after_begin (imageData : string) (w : World) :
  sent (trace (snd (handlePhotoTaken_begin imageData w))) = sent (trace w).
Proof.
  rewrite handlePhotoTaken_begin_run. cbn [snd trace].
  rewrite sent_app. cbn. apply app_nil_r.
Qed.

(** X17. What one capture costs, whatever the network and the channel do
    and from whatever state the handler is called.  The analysis takes at
    most 10 seconds up to the answer, the body of an answer in time then
    takes what it takes ([response.json()] is not under the timer), and the
    delivery adds at most 31 seconds of backoff: with every such body
    there within [extra] ms, everything [handlePhotoTaken] does, the
    background delivery included, is done within 41 seconds plus [extra].
    The channel state is read at most 5 times and [sendClientEvent] is
    called at most 3 times. *)
Theorem handlePhotoTaken_bounds :
  forall (props : Props) (env : Env) (imageData : string) (w : World)
         (extra : Z),
    (0 <= extra)%Z ->
    (forall t r ms parsed,
        fetch env "/analyze-image" = SettlesAt t (Normal r) ->
        body r = BodySlow ms parsed -> (ms <= extra)%Z) ->
    let run := handlePhotoTaken props env imageData w in
    (clock (snd run) <= clock w + 41000 + extra)%Z
    /\ reads (snd run) <= reads w + 5
    /\ exists d,
         sent (trace (snd run)) = (sent (trace w) ++ d)%list
         /\ length d <= 3.
Proof.
  intros props env imageData w extra Hextra Hslow run.
  unfold run, handlePhotoTaken, bind.
  pose proof (sent_after_begin imageData w) as Hsent0.
  rewrite handlePhotoTaken_begin_run in *. cbn [snd] in Hsent0.
  set (w0 := mkWorld (analyzing imageData (ui w))
                     (trace w ++ [ConsoleLog "Photo taken"])
                     (clock w) (reads w)) in *.
  assert (Hcatch : forall e w1,
             (clock w1 <= clock w + 10000 + extra)%Z ->
             reads w1 = reads w ->
             sent (trace w1) = sent (trace w) ->
             (clock (snd (handlePhotoTaken_catch props e w1))
              <= clock w + 41000 + extra)%Z
             /\ reads (snd (handlePhotoTaken_catch props e w1)) <= reads w + 5
             /\ exists d,
                  sent (trace (snd (handlePhotoTaken_catch props e w1)))
                  = (sent (trace w) ++ d)%list
                  /\ length d <= 3).
  { intros e w1 Hclock Hreads Hsent.
    destruct (handlePhotoTaken_catch_bounds props e w1)
      as (-> & Hr & d & -> & Hd).
    rewrite Hsent. split; [lia|]. split; [lia|].
    exists d. split; [reflexivity | lia]. }
  assert (Hdeliver : forall text w1,
             (clock w1 <= clock w + 10000 + extra)%Z ->
             reads w1 = reads w ->
             sent (trace w1) = sent (trace w) ->
             (clock (snd (deliver props text w1)) <= clock w + 41000 + extra)%Z
             /\ reads (snd (deliver props text w1)) <= reads w + 5
             /\ exists d,
                  sent (trace (snd (deliver props text w1)))
                  = (sent (trace w) ++ d)%list
                  /\ length d <= 3).
  { intros text w1 Hclock Hreads Hsent.
    destruct (deliver_bounds props text w1) as (Hc & Hr & d & -> & Hd).
    rewrite Hsent. split; [lia|]. split; [lia|].
    exists d. split; [reflexivity | exact Hd]. }
  assert (Hidle : forall w1,
             (clock w1 <= clock w + 10000 + extra)%Z ->
             reads w1 = reads w ->
             sent (trace w1) = sent (trace w) ->
             (clock w1 <= clock w + 41000 + extra)%Z
             /\ reads w1 <= reads w + 5
             /\ exists d,
                  sent (trace w1) = (sent (trace w) ++ d)%list
                  /\ length d <= 3).
  { intros w1 Hclock Hreads Hsent.
    split; [lia|]. split; [lia|].
    exists []. rewrite app_nil_r. split; [exact Hsent | cbn; lia]. }
  assert (Hrace : forall t, sent (trace (after_race imageData t w0))
                            = sent (trace w)).
  { intros t. rewrite sent_after_race. exact Hsent0. }
  destruct (fetch env "/analyze-image") as [t c|] eqn:Hfetch.
  - destruct (Z.ltb_spec VISION_TIMEOUT t) as [Hafter|Hin].
    + rewrite (handlePhotoTaken_resume_run props env imageData _ _ _
                 (analyzeWithTimeout_late env imageData w0
                    (or_intror (ex_intro _ t (ex_intro _ c (conj Hfetch Hafter)))))).
      apply Hcatch;
        [cbn; unfold VISION_TIMEOUT; lia | reflexivity | apply Hrace].
    + rewrite (handlePhotoTaken_resume_run props env imageData _ _ _
                 (analyzeWithTimeout_in_time env imageData t c w0 Hfetch Hin)).
      unfold VISION_TIMEOUT in Hin.
      destruct c as [r|e|].
      * pose proof (Hslow t r) as Hms.
        destruct (body r) as [msg|j|ms [msg|j]|].
        -- apply Hcatch; [cbn; lia | reflexivity | apply Hrace].
        -- destruct (message_content j) as [text|e|]; cbn [snd].
           ++ apply Hdeliver;
                [cbn; lia | reflexivity | rewrite sent_after_parse; apply Hrace].
           ++ apply Hcatch;
                [cbn; lia | reflexivity | rewrite sent_after_parse; apply Hrace].
           ++ apply Hidle;
                [cbn; lia | reflexivity | rewrite sent_after_parse; apply Hrace].
        -- specialize (Hms ms (inl msg) eq_refl eq_refl).
           apply Hcatch; [cbn; lia | reflexivity | apply Hrace].
        -- specialize (Hms ms (inr j) eq_refl eq_refl).
           destruct (message_content j) as [text|e|]; cbn [snd].
           ++ apply Hdeliver;
                [cbn; lia | reflexivity | rewrite sent_after_parse; apply Hrace].
           ++ apply Hcatch;
                [cbn; lia | reflexivity | rewrite sent_after_parse; apply Hrace].
           ++ apply Hidle;
                [cbn; lia | reflexivity | rewrite sent_after_parse; apply Hrace].
        -- apply Hidle; [cbn; lia | reflexivity | apply Hrace].
      * apply Hcatch; [cbn; lia | reflexivity | apply Hrace].
      * apply Hidle; [cbn; lia | reflexivity | apply Hrace].
  - rewrite (handlePhotoTaken_resume_run props env imageData _ _ _
               (analyzeWithTimeout_late env imageData w0 (or_introl Hfetch))).
    apply Hcatch;
      [cbn; unfold VISION_TIMEOUT; lia | reflexivity | apply Hrace].
Qed.

(** An answer after 1200 ms, its body 700 ms later, and a channel that
    never opens: all five checks are made and the last comes after
    1200 + 700 + 1000 + 2000 + 4000 + 8000 + 16000 ms. *)
Lemma handlePhotoTaken_bounds_witness :
  let run := handlePhotoTaken (mkProps true None (Some never_opens)) slow_answer
               sample_image (start initial_ui) in
  (clock (snd run) <= 41700)%Z
  /\ clock (snd run) = 32900%Z
  /\ reads (snd run) = 5
  /\ sent (trace (snd run)) = [].
Proof.
  cbv zeta.
  split; [|split; [|split]]; try reflexivity.
  destruct (handlePhotoTaken_bounds (mkProps true None (Some never_opens))
              slow_answer sample_image (start initial_ui) 700%Z)
    as (Hclock & _).
  - lia.
  - intros t r ms parsed Hfetch Hbody.
    injection Hfetch as _ <-. injection Hbody as <- _. lia.
  - exact Hclock.
Defined.
